(** * The bridge controller of the ARI client (bridges.go)

    A shallow embedding of [src/bridges.go]: the resource model, the
    twelve controller operations (plus [NewBridge]) over the transport
    facade, the JSON shape of the request bodies, and the helpers that
    attach a bridge to a [context.Context]. *)

From Stdlib Require Import String List Bool NArith.
From Stdlib Require Import PeanoNat Lia.
From ExtLib Require Import Structures.Monad Structures.MonadState.
From ExtLib Require Import Data.Monads.StateMonad.
Import ListNotations.
Import MonadNotation.
Local Open Scope monad_scope.
Local Open Scope string_scope.
Local Open Scope list_scope.

Set Implicit Arguments.

(* ===================================================================== *)
(** * Resource model *)
(* ===================================================================== *)

(** [type Bridge struct] (bridges.go:10-18). *)
Record Bridge : Type := {
  Bridge_class : string;       (* json:"bridge" *)
  Bridge_type  : string;       (* json:"bridge_type" *)
  Channels     : list string;  (* json:"channels" *)
  Creator      : string;       (* json:"creator" *)
  Id           : string;       (* json:"id" *)
  Name         : string;       (* json:"name" *)
  Technology   : string        (* json:"technology" *)
}.

(** The zero value a Go [var m Bridge] starts with. *)
Definition zero_Bridge : Bridge :=
  {| Bridge_class := ""; Bridge_type := ""; Channels := [];
     Creator := ""; Id := ""; Name := ""; Technology := "" |}.

(** [type CreateBridgeRequest struct] (bridges.go:21-25).  [Type] is a
    reserved word here, so the three fields carry a [req_] prefix. *)
Record CreateBridgeRequest : Type := {
  req_Id   : string;   (* json:"bridgeId,omitempty" *)
  req_Type : string;   (* json:"type,omitempty" *)
  req_Name : string    (* json:"name,omitempty" *)
}.

(** [type AddChannelRequest struct] (bridges.go:29-32). *)
Record AddChannelRequest : Type := {
  ChannelId : string;  (* json:"channel" *)
  Role      : string   (* json:"role,omitempty" *)
}.

(** The function-local [type request struct] of [RemoveChannel]
    (bridges.go:106-108). *)
Record RemoveChannel_request : Type := {
  remove_ChannelId : string   (* json:"channel" *)
}.

(** The function-local [type request struct] of [PlayMusicOnHold]
    (bridges.go:125-127). *)
Record PlayMusicOnHold_request : Type := {
  MohClass : string   (* json:"mohClass,omitempty" *)
}.

(** The types this file uses but which are declared in other files of the
    package: the playback and recording resources, their request shapes,
    and the dynamic values behind Go's [error] interface.  They stay
    parameters; only their zero values are needed ([var m Playback]). *)
Class Collaborators : Type := {
  Playback         : Type;
  LiveRecording    : Type;
  PlayMediaRequest : Type;
  RecordRequest    : Type;
  ErrorValue       : Type;
  zero_Playback      : Playback;
  zero_LiveRecording : LiveRecording
}.

(* ===================================================================== *)
(** * Transport facade *)
(* ===================================================================== *)

Inductive Method : Type := GET | POST | DELETE.

Section Transport.
Context `{Collaborators}.

(** Go's [error]: [nil] or some error value. *)
Definition error : Type := option ErrorValue.

(** What the second argument of a transport call points at: nothing
    ([nil]) or a variable of one of the result types. *)
Inductive target : Type :=
  | NoTarget | ToBridges | ToBridge | ToPlayback | ToLiveRecording.

Definition pointee (t : target) : Type :=
  match t with
  | NoTarget        => unit
  | ToBridges       => list Bridge
  | ToBridge        => Bridge
  | ToPlayback      => Playback
  | ToLiveRecording => LiveRecording
  end.

(** What the request argument points at: nothing ([nil]) or one of the
    request structs. *)
Inductive body : Type :=
  | NoBody
  | CreateBridgeBody    (req : CreateBridgeRequest)
  | AddChannelBody      (req : AddChannelRequest)
  | RemoveChannelBody   (req : RemoveChannel_request)
  | PlayMusicOnHoldBody (req : PlayMusicOnHold_request)
  | PlayMediaBody       (req : PlayMediaRequest)
  | RecordBody          (req : RecordRequest).

(** One call into the transport facade, as the controller makes it. *)
Record Call : Type := {
  call_method : Method;
  call_url    : string;
  call_target : target;
  call_body   : body
}.

(** What one round trip does on the caller's side: it rewrites the
    variable behind the target pointer and yields an error or [nil]. *)
Record Response : Type := {
  decoded : forall t : target, pointee t -> pointee t;
  failure : error
}.

(** The client handle.  Everything behind it (base url, credentials, the
    remote server) shows here only as the response it gives to a call,
    which may depend on the calls made before. *)
Record Client : Type := {
  server : list Call -> Call -> Response
}.

(** The world the controller runs in: the identifiers [uuid.New] will
    hand out (with the number already handed out) and the calls that
    went over the wire, oldest first. *)
Record World : Type := {
  uuid_source : nat -> string;
  uuid_drawn  : nat;
  wire        : list Call
}.

Definition IO : Type -> Type := state World.

Definition sent (k : Call) (w : World) : World :=
  {| uuid_source := uuid_source w;
     uuid_drawn  := uuid_drawn w;
     wire        := wire w ++ [k] |}.

Definition drew (w : World) : World :=
  {| uuid_source := uuid_source w;
     uuid_drawn  := S (uuid_drawn w);
     wire        := wire w |}.

(** [uuid.New()] of the imported go-uuid package: the next identifier. *)
Definition uuid_New : IO string :=
  w <- get ;;
  put (drew w) ;;
  ret (uuid_source w (uuid_drawn w)).

(** Modelled from the spec: the transport facade, whose source
    ([AriGet], [AriPost], [AriDelete] of [Client]) is in another file.
    One logical call is one round trip: the call goes on the wire, the
    response is decoded into the target, and the error is surfaced. *)
Definition round_trip (c : Client) (m : Method) (url : string)
    (t : target) (m0 : pointee t) (req : body) : IO (pointee t * error) :=
  w <- get ;;
  let k := {| call_method := m; call_url := url;
              call_target := t; call_body := req |} in
  let r := server c (wire w) k in
  put (sent k w) ;;
  ret (decoded r t m0, failure r).

(** Modelled from the spec: [c.AriGet(url, ret)]. *)
Definition AriGet (c : Client) (url : string) (t : target) (m0 : pointee t)
  : IO (pointee t * error) :=
  round_trip c GET url t m0 NoBody.

(** Modelled from the spec: [c.AriPost(url, ret, req)]. *)
Definition AriPost (c : Client) (url : string) (t : target) (m0 : pointee t)
    (req : body) : IO (pointee t * error) :=
  round_trip c POST url t m0 req.

(** Modelled from the spec: [c.AriDelete(url, ret, req)]. *)
Definition AriDelete (c : Client) (url : string) (t : target)
    (m0 : pointee t) (req : body) : IO (pointee t * error) :=
  round_trip c DELETE url t m0 req.

(* ===================================================================== *)
(** * Bridge controller *)
(* ===================================================================== *)

(** bridges.go:36-43. *)
Definition ListBridges (c : Client) : IO (list Bridge * error) :=
  ' (m, err) <- AriGet c "/bridges" ToBridges [] ;;
  match err with
  | Some e => ret (m, Some e)
  | None   => ret (m, None)
  end.

(** bridges.go:54-63. *)
Definition CreateBridge (c : Client) (req : CreateBridgeRequest)
  : IO (Bridge * error) :=
  ' (m, err) <- AriPost c "/bridges" ToBridge zero_Bridge
                  (CreateBridgeBody req) ;;
  match err with
  | Some e => ret (m, Some e)
  | None   => ret (m, None)
  end.

(** bridges.go:67-76. *)
Definition UpsertBridge (c : Client) (bridgeId : string)
    (req : CreateBridgeRequest) : IO (Bridge * error) :=
  ' (m, err) <- AriPost c ("/bridges/" ++ bridgeId) ToBridge zero_Bridge
                  (CreateBridgeBody req) ;;
  match err with
  | Some e => ret (m, Some e)
  | None   => ret (m, None)
  end.

(** bridges.go:47-50. *)
Definition NewBridge (c : Client) : IO (Bridge * error) :=
  id <- uuid_New ;;
  UpsertBridge c id {| req_Id := id; req_Type := ""; req_Name := "" |}.

(** bridges.go:80-87. *)
Definition GetBridge (c : Client) (bridgeId : string) : IO (Bridge * error) :=
  ' (m, err) <- AriGet c ("/bridges/" ++ bridgeId) ToBridge zero_Bridge ;;
  match err with
  | Some e => ret (m, Some e)
  | None   => ret (m, None)
  end.

(** bridges.go:91-100. *)
Definition AddChannel (c : Client) (bridgeId : string)
    (req : AddChannelRequest) : IO error :=
  ' (_, err) <- AriPost c ("/bridges/" ++ bridgeId ++ "/addChannel")
                  NoTarget tt (AddChannelBody req) ;;
  match err with
  | Some e => ret (Some e)
  | None   => ret None
  end.

(** bridges.go:104-118. *)
Definition RemoveChannel (c : Client) (bridgeId channelId : string)
  : IO error :=
  let req := {| remove_ChannelId := channelId |} in
  ' (_, err) <- AriPost c ("/bridges/" ++ bridgeId ++ "/removeChannel")
                  NoTarget tt (RemoveChannelBody req) ;;
  match err with
  | Some e => ret (Some e)
  | None   => ret None
  end.

(** bridges.go:122-137. *)
Definition PlayMusicOnHold (c : Client) (bridgeId mohClass : string)
  : IO error :=
  let req := {| MohClass := mohClass |} in
  ' (_, err) <- AriPost c ("/bridges/" ++ bridgeId ++ "/moh")
                  NoTarget tt (PlayMusicOnHoldBody req) ;;
  match err with
  | Some e => ret (Some e)
  | None   => ret None
  end.

(** bridges.go:141-150. *)
Definition PlayToBridge (c : Client) (bridgeId : string)
    (req : PlayMediaRequest) : IO (Playback * error) :=
  ' (m, err) <- AriPost c ("/bridges/" ++ bridgeId ++ "/play")
                  ToPlayback zero_Playback (PlayMediaBody req) ;;
  match err with
  | Some e => ret (m, Some e)
  | None   => ret (m, None)
  end.

(** bridges.go:154-162. *)
Definition PlayToBridgeById (c : Client) (bridgeId playbackId : string)
    (req : PlayMediaRequest) : IO (Playback * error) :=
  ' (m, err) <- AriPost c ("/bridges/" ++ bridgeId ++ "/play/" ++ playbackId)
                  ToPlayback zero_Playback (PlayMediaBody req) ;;
  match err with
  | Some e => ret (m, Some e)
  | None   => ret (m, None)
  end.

(** bridges.go:166-176. *)
Definition RecordBridge (c : Client) (bridgeId : string)
    (req : RecordRequest) : IO (LiveRecording * error) :=
  ' (m, err) <- AriPost c ("/bridges/" ++ bridgeId ++ "/record")
                  ToLiveRecording zero_LiveRecording (RecordBody req) ;;
  match err with
  | Some e => ret (m, Some e)
  | None   => ret (m, None)
  end.

(** bridges.go:181-184. *)
Definition BridgeDelete (c : Client) (bridgeId : string) : IO error :=
  ' (_, err) <- AriDelete c ("/bridges/" ++ bridgeId) NoTarget tt NoBody ;;
  ret err.

(** bridges.go:188-191. *)
Definition BridgeStopMoh (c : Client) (bridgeId : string) : IO error :=
  ' (_, err) <- AriDelete c ("/bridges/" ++ bridgeId ++ "/moh")
                  NoTarget tt NoBody ;;
  ret err.

End Transport.

(* ===================================================================== *)
(** * The controller as one family of operations *)
(* ===================================================================== *)

Section Operations.
Context `{Collaborators}.

(** The twelve rows of the wire table, each with the arguments its
    function takes. *)
Inductive operation : Type :=
  | OpListBridges
  | OpCreateBridge     (req : CreateBridgeRequest)
  | OpUpsertBridge     (bridgeId : string) (req : CreateBridgeRequest)
  | OpGetBridge        (bridgeId : string)
  | OpAddChannel       (bridgeId : string) (req : AddChannelRequest)
  | OpRemoveChannel    (bridgeId channelId : string)
  | OpPlayMusicOnHold  (bridgeId mohClass : string)
  | OpPlayToBridge     (bridgeId : string) (req : PlayMediaRequest)
  | OpPlayToBridgeById (bridgeId playbackId : string) (req : PlayMediaRequest)
  | OpRecordBridge     (bridgeId : string) (req : RecordRequest)
  | OpBridgeDelete     (bridgeId : string)
  | OpBridgeStopMoh    (bridgeId : string).

(** What an operation hands back besides the error. *)
Inductive value : Type :=
  | NoValue
  | BridgesValue       (m : list Bridge)
  | BridgeValue        (m : Bridge)
  | PlaybackValue      (m : Playback)
  | LiveRecordingValue (m : LiveRecording).

Definition with_value {A : Type} (wrap : A -> value) (op : IO (A * error))
  : IO (value * error) :=
  r <- op ;; ret (wrap (fst r), snd r).

Definition without_value (op : IO error) : IO (value * error) :=
  e <- op ;; ret (NoValue, e).

(** Running an operation is calling its function of bridges.go. *)
Definition perform (c : Client) (op : operation) : IO (value * error) :=
  match op with
  | OpListBridges             => with_value BridgesValue (ListBridges c)
  | OpCreateBridge req        => with_value BridgeValue (CreateBridge c req)
  | OpUpsertBridge id req     => with_value BridgeValue (UpsertBridge c id req)
  | OpGetBridge id            => with_value BridgeValue (GetBridge c id)
  | OpAddChannel id req       => without_value (AddChannel c id req)
  | OpRemoveChannel id ch     => without_value (RemoveChannel c id ch)
  | OpPlayMusicOnHold id cls  => without_value (PlayMusicOnHold c id cls)
  | OpPlayToBridge id req     => with_value PlaybackValue (PlayToBridge c id req)
  | OpPlayToBridgeById id pb req =>
      with_value PlaybackValue (PlayToBridgeById c id pb req)
  | OpRecordBridge id req     =>
      with_value LiveRecordingValue (RecordBridge c id req)
  | OpBridgeDelete id         => without_value (BridgeDelete c id)
  | OpBridgeStopMoh id        => without_value (BridgeStopMoh c id)
  end.

(** The wire table as the specification gives it (section 6): method and
    path of every operation, the path template filled in by plain
    concatenation. *)
Definition spec_wire_table (op : operation) : Method * string :=
  (match op with
  | OpListBridges            => (GET,    "/bridges")
  | OpCreateBridge _         => (POST,   "/bridges")
  | OpUpsertBridge id _      => (POST,   "/bridges/" ++ id)
  | OpGetBridge id           => (GET,    "/bridges/" ++ id)
  | OpAddChannel id _        => (POST,   "/bridges/" ++ id ++ "/addChannel")
  | OpRemoveChannel id _     => (POST,   "/bridges/" ++ id ++ "/removeChannel")
  | OpPlayMusicOnHold id _   => (POST,   "/bridges/" ++ id ++ "/moh")
  | OpPlayToBridge id _      => (POST,   "/bridges/" ++ id ++ "/play")
  | OpPlayToBridgeById id pb _ =>
                                (POST,   "/bridges/" ++ id ++ "/play/" ++ pb)
  | OpRecordBridge id _      => (POST,   "/bridges/" ++ id ++ "/record")
  | OpBridgeDelete id        => (DELETE, "/bridges/" ++ id)
  | OpBridgeStopMoh id       => (DELETE, "/bridges/" ++ id ++ "/moh")
  end)%string.

(** The operations the specification calls side-effect-only (section 7). *)
Definition side_effect_only (op : operation) : bool :=
  match op with
  | OpAddChannel _ _ | OpRemoveChannel _ _ | OpPlayMusicOnHold _ _
  | OpBridgeDelete _ | OpBridgeStopMoh _ => true
  | _ => false
  end.

(** What a response decodes to for an operation: the variable the
    operation declared ([var m ...], at its zero value) after the
    transport wrote the response into it. *)
Definition decoded_value (op : operation) (r : Response) : value :=
  match op with
  | OpListBridges => BridgesValue (decoded r ToBridges [])
  | OpCreateBridge _ | OpUpsertBridge _ _ | OpGetBridge _ =>
      BridgeValue (decoded r ToBridge zero_Bridge)
  | OpPlayToBridge _ _ | OpPlayToBridgeById _ _ _ =>
      PlaybackValue (decoded r ToPlayback zero_Playback)
  | OpRecordBridge _ _ =>
      LiveRecordingValue (decoded r ToLiveRecording zero_LiveRecording)
  | OpAddChannel _ _ | OpRemoveChannel _ _ | OpPlayMusicOnHold _ _
  | OpBridgeDelete _ | OpBridgeStopMoh _ => NoValue
  end.

(** The call an operation of the wire table puts on the wire. *)
Definition call_of (op : operation) : Call :=
  match op with
  | OpListBridges =>
      Build_Call GET "/bridges" ToBridges NoBody
  | OpCreateBridge req =>
      Build_Call POST "/bridges" ToBridge (CreateBridgeBody req)
  | OpUpsertBridge id req =>
      Build_Call POST ("/bridges/" ++ id) ToBridge (CreateBridgeBody req)
  | OpGetBridge id =>
      Build_Call GET ("/bridges/" ++ id) ToBridge NoBody
  | OpAddChannel id req =>
      Build_Call POST ("/bridges/" ++ id ++ "/addChannel") NoTarget
        (AddChannelBody req)
  | OpRemoveChannel id ch =>
      Build_Call POST ("/bridges/" ++ id ++ "/removeChannel") NoTarget
        (RemoveChannelBody {| remove_ChannelId := ch |})
  | OpPlayMusicOnHold id cls =>
      Build_Call POST ("/bridges/" ++ id ++ "/moh") NoTarget
        (PlayMusicOnHoldBody {| MohClass := cls |})
  | OpPlayToBridge id req =>
      Build_Call POST ("/bridges/" ++ id ++ "/play") ToPlayback
        (PlayMediaBody req)
  | OpPlayToBridgeById id pb req =>
      Build_Call POST ("/bridges/" ++ id ++ "/play/" ++ pb) ToPlayback
        (PlayMediaBody req)
  | OpRecordBridge id req =>
      Build_Call POST ("/bridges/" ++ id ++ "/record") ToLiveRecording
        (RecordBody req)
  | OpBridgeDelete id =>
      Build_Call DELETE ("/bridges/" ++ id) NoTarget NoBody
  | OpBridgeStopMoh id =>
      Build_Call DELETE ("/bridges/" ++ id ++ "/moh") NoTarget NoBody
  end.

End Operations.

(* ===================================================================== *)
(** * JSON shape of the request bodies *)
(* ===================================================================== *)

(** The values a member of a request body can take, and a body as the
    JSON object it is: its members in order.  A member is kept as the
    value it denotes, that is, as the string a receiver reads back: the
    escapes the encoder writes for quotes, control characters and the
    like denote the characters they stand for and do not show here;
    the replacement of bytes that are no valid UTF-8 does. *)
Inductive json_value : Type :=
  | JNull
  | JString (s : string).

Definition json_object : Type := list (string * json_value).

(** One exported string field of a request struct with its [json:"..."]
    tag: the key, whether the tag says [omitempty], and the value. *)
Record field : Type := {
  json_key    : string;
  omitempty   : bool;
  field_value : string
}.

(** A struct the encoder can walk: its fields in declaration order. *)
Class Tagged (T : Type) : Type := { fields : T -> list field }.

(** bridges.go:22-24. *)
#[export] Instance Tagged_CreateBridgeRequest : Tagged CreateBridgeRequest :=
  {| fields r :=
       [ {| json_key := "bridgeId"; omitempty := true;
            field_value := req_Id r |};
         {| json_key := "type"; omitempty := true;
            field_value := req_Type r |};
         {| json_key := "name"; omitempty := true;
            field_value := req_Name r |} ] |}.

(** bridges.go:30-31. *)
#[export] Instance Tagged_AddChannelRequest : Tagged AddChannelRequest :=
  {| fields r :=
       [ {| json_key := "channel"; omitempty := false;
            field_value := ChannelId r |};
         {| json_key := "role"; omitempty := true;
            field_value := Role r |} ] |}.

(** bridges.go:107. *)
#[export] Instance Tagged_RemoveChannel_request
  : Tagged RemoveChannel_request :=
  {| fields r :=
       [ {| json_key := "channel"; omitempty := false;
            field_value := remove_ChannelId r |} ] |}.

(** bridges.go:126. *)
#[export] Instance Tagged_PlayMusicOnHold_request
  : Tagged PlayMusicOnHold_request :=
  {| fields r :=
       [ {| json_key := "mohClass"; omitempty := true;
            field_value := MohClass r |} ] |}.

(** ** Strings as the encoder reads them

    Go strings are byte strings; the encoder walks them rune by rune
    with [utf8.DecodeRuneInString] and writes U+FFFD for every byte that
    starts no valid UTF-8 sequence. *)

Definition byte_between (lo hi : N) (b : Ascii.ascii) : bool :=
  (lo <=? Ascii.N_of_ascii b)%N && (Ascii.N_of_ascii b <=? hi)%N.

(** The table [first] of the utf8 package with its accept ranges: for a
    leading byte, the width of the sequence it starts and the range its
    second byte must lie in; [None] for a byte that starts none. *)
Definition first (s0 : Ascii.ascii) : option (nat * (N * N)) :=
  let n := Ascii.N_of_ascii s0 in
  if (n <? 0x80)%N then Some (1, (0x00, 0x00)%N)
  else if (n <? 0xC2)%N then None
  else if (n <? 0xE0)%N then Some (2, (0x80, 0xBF)%N)
  else if (n =? 0xE0)%N then Some (3, (0xA0, 0xBF)%N)
  else if (n =? 0xED)%N then Some (3, (0x80, 0x9F)%N)
  else if (n <? 0xF0)%N then Some (3, (0x80, 0xBF)%N)
  else if (n =? 0xF0)%N then Some (4, (0x90, 0xBF)%N)
  else if (n <? 0xF4)%N then Some (4, (0x80, 0xBF)%N)
  else if (n =? 0xF4)%N then Some (4, (0x80, 0x8F)%N)
  else None.

(** A continuation byte: [locb] to [hicb]. *)
Definition continuation (b : Ascii.ascii) : bool :=
  byte_between 0x80 0xBF b.

(** The width [utf8.DecodeRuneInString] reports for the rune at the head
    of [String s0 rest], or [None] where it reports [(RuneError, 1)]:
    the head byte starts no sequence, the string ends too early, or a
    following byte is out of range. *)
Definition rune_width (s0 : Ascii.ascii) (rest : string) : option nat :=
  match first s0 with
  | None => None
  | Some (sz, (lo, hi)) =>
      if Nat.leb sz 1 then Some 1 else
      match rest with
      | String s1 rest1 =>
          if negb (byte_between lo hi s1) then None
          else if Nat.leb sz 2 then Some 2 else
          match rest1 with
          | String s2 rest2 =>
              if negb (continuation s2) then None
              else if Nat.leb sz 3 then Some 3 else
              match rest2 with
              | String s3 _ =>
                  if negb (continuation s3) then None else Some 4
              | EmptyString => None
              end
          | EmptyString => None
          end
      | EmptyString => None
      end
  end.

(** U+FFFD in UTF-8: the bytes EF BF BD. *)
Definition replacement_char : string :=
  String (Ascii.ascii_of_N 0xEF)
    (String (Ascii.ascii_of_N 0xBF)
       (String (Ascii.ascii_of_N 0xBD) EmptyString)).

(** The encoder's loop over a string, [pending] bytes of an accepted
    rune still to be copied: a rune that decodes is kept, a byte that
    does not is replaced by U+FFFD and the loop moves on by one byte. *)
Fixpoint encoded_from (pending : nat) (s : string) : string :=
  match s with
  | EmptyString => EmptyString
  | String b rest =>
      match pending with
      | S k => String b (encoded_from k rest)
      | O =>
          match rune_width b rest with
          | Some (S k) => String b (encoded_from k rest)
          | _ => (replacement_char ++ encoded_from 0 rest)%string
          end
      end
  end.

(** The value of the JSON string the encoder writes for a Go string. *)
Definition encoded_string (s : string) : string := encoded_from 0 s.

(** [utf8.ValidString]: every byte belongs to a rune that decodes. *)
Fixpoint valid_from (pending : nat) (s : string) : bool :=
  match s with
  | EmptyString => true
  | String b rest =>
      match pending with
      | S k => valid_from k rest
      | O =>
          match rune_width b rest with
          | Some (S k) => valid_from k rest
          | _ => false
          end
      end
  end.

Definition ValidString (s : string) : bool := valid_from 0 s.

(** A string is empty when it has no bytes. *)
Definition isEmptyValue (s : string) : bool :=
  Nat.eqb (String.length s) 0.

(** The members one field contributes: none when it is tagged
    [omitempty] and empty, else its key with the value as the encoder
    writes a string. *)
Definition encode_field (f : field) : json_object :=
  if omitempty f && isEmptyValue (field_value f)
  then []
  else [(json_key f, JString (encoded_string (field_value f)))].

(** The JSON encoding of a request struct as Go's encoding/json derives
    it from the [json:"..."] tags of bridges.go: an object with the
    fields in declaration order, every [omitempty] field left out when
    empty, every string written as the encoder writes strings (bytes
    that are no valid UTF-8 replaced by U+FFFD).  (The encoder is called
    on the request argument inside the
    transport facade, which the specification describes as serialising
    the body to JSON.) *)
Definition Marshal {T : Type} `{Tagged T} (v : T) : json_object :=
  flat_map encode_field (fields v).

Definition keys (j : json_object) : list string := map fst j.

(** The member stored under a key, if any. *)
Definition member (k : string) (j : json_object) : option json_value :=
  option_map snd (find (fun m => String.eqb (fst m) k) j).

(* ===================================================================== *)
(** * Context propagation *)
(* ===================================================================== *)

(** A [*Bridge]: the nil pointer or the address of a bridge. *)
Inductive BridgePtr : Type :=
  | nilBridge
  | BridgeAt (addr : N).

(** A Go operation that may panic. *)
Inductive result (A : Type) : Type :=
  | Done (a : A)
  | Panic.
Arguments Done {A} a.
Arguments Panic {A}.

(** The interface values ([interface{}]) a context can hold as key or as
    value: the nil interface, a [bridgeKey], a [*Bridge], a plain
    [string], a comparable value of some other type, and a value of a
    type that has no [==] (a slice, a map, a func). *)
Inductive any : Type :=
  | nil_any
  | of_bridgeKey    (name : string)
  | of_BridgePtr    (b : BridgePtr)
  | of_string       (s : string)
  | of_comparable   (type_id val : N)
  | of_uncomparable (type_id val : N).

Definition BridgePtr_eqb (p q : BridgePtr) : bool :=
  match p, q with
  | nilBridge, nilBridge => true
  | BridgeAt a, BridgeAt b => N.eqb a b
  | _, _ => false
  end.

(** Go's [==] on two interface values: equal dynamic types and equal
    values; a run-time panic when both have the same type and that type
    is not comparable. *)
Definition iface_eq (x y : any) : result bool :=
  match x, y with
  | nil_any, nil_any => Done true
  | of_bridgeKey a, of_bridgeKey b => Done (String.eqb a b)
  | of_BridgePtr p, of_BridgePtr q => Done (BridgePtr_eqb p q)
  | of_string a, of_string b => Done (String.eqb a b)
  | of_comparable t a, of_comparable u b => Done (N.eqb t u && N.eqb a b)
  | of_uncomparable t _, of_uncomparable u _ =>
      if N.eqb t u then Panic else Done false
  | _, _ => Done false
  end.

(** The carriers of the imported context package: the empty root
    ([Background], [TODO]), a cancellation or deadline layer, which only
    forwards lookups, and a value layer ([valueCtx]). *)
Inductive Context : Type :=
  | emptyCtx
  | cancelCtx (parent : Context)
  | valueCtx  (parent : Context) (key val : any).

(** [ctx.Value(key)]: the innermost value stored under [key], the nil
    interface when there is none. *)
Fixpoint Value (ctx : Context) (key : any) : result any :=
  match ctx with
  | emptyCtx => Done nil_any
  | cancelCtx parent => Value parent key
  | valueCtx parent k v =>
      match iface_eq k key with
      | Done true  => Done v
      | Done false => Value parent key
      | Panic      => Panic
      end
  end.

(** [context.WithValue(parent, key, val)]. *)
Definition WithValue (parent : Context) (key val : any) : Context :=
  valueCtx parent key val.

(** The type assertion to [*Bridge] in its two-result form: the pointer
    and [true] when the dynamic type is [*Bridge], else the zero pointer
    and [false]. *)
Definition assert_BridgePtr (x : any) : BridgePtr * bool :=
  match x with
  | of_BridgePtr b => (b, true)
  | _ => (nilBridge, false)
  end.

(** bridges.go:207-209.  [bridgeKey(name)] converts the string to the
    key type of line 198. *)
Definition NewBridgeContextWithKey (ctx : Context) (b : BridgePtr)
    (name : string) : Context :=
  WithValue ctx (of_bridgeKey name) (of_BridgePtr b).

(** bridges.go:201-203. *)
Definition NewBridgeContext (ctx : Context) (b : BridgePtr) : Context :=
  NewBridgeContextWithKey ctx b "_default".

(** bridges.go:217-220. *)
Definition BridgeFromContextWithKey (ctx : Context) (name : string)
  : result (BridgePtr * bool) :=
  match Value ctx (of_bridgeKey name) with
  | Done x => Done (assert_BridgePtr x)
  | Panic  => Panic
  end.

(** bridges.go:212-214. *)
Definition BridgeFromContext (ctx : Context) : result (BridgePtr * bool) :=
  BridgeFromContextWithKey ctx "_default".

(** Whether some value layer of the carrier holds the name as its key. *)
Fixpoint attached (ctx : Context) (name : string) : bool :=
  match ctx with
  | emptyCtx => false
  | cancelCtx parent => attached parent name
  | valueCtx parent (of_bridgeKey n) _ =>
      String.eqb n name || attached parent name
  | valueCtx parent _ _ => attached parent name
  end.

(** The layers of a carrier, the carrier itself first. *)
Fixpoint layers (ctx : Context) : list Context :=
  ctx :: match ctx with
         | emptyCtx => []
         | cancelCtx parent => layers parent
         | valueCtx parent _ _ => layers parent
         end.

Definition is_BridgePtr (x : any) : bool :=
  match x with
  | of_BridgePtr _ => true
  | _ => false
  end.

(* ===================================================================== *)
(** * Notions for stating further facts *)
(* ===================================================================== *)

Section Observations.
Context `{Collaborators}.

(** What a program put on the wire, call by call: method and path. *)
Definition requests {A : Type} (prog : IO A) (w : World)
  : list (Method * string) :=
  map (fun k => (call_method k, call_url k)) (wire (snd (runState prog w))).

(** The value and the error a run ends with. *)
Definition answer {A : Type} (prog : IO A) (w : World) : A :=
  fst (runState prog w).

End Observations.

(** Every field of a request struct holds valid UTF-8. *)
Definition valid_fields {T : Type} `{Tagged T} (v : T) : bool :=
  forallb (fun f => ValidString (field_value f)) (fields v).

Definition is_bridgeKey (k : any) : bool :=
  match k with
  | of_bridgeKey _ => true
  | _ => false
  end.

(** Every value layer keyed by a [bridgeKey] holds a [*Bridge]. *)
Fixpoint bridge_typed (ctx : Context) : bool :=
  match ctx with
  | emptyCtx => true
  | cancelCtx parent => bridge_typed parent
  | valueCtx parent k v =>
      (negb (is_bridgeKey k) || is_BridgePtr v) && bridge_typed parent
  end.

(** A caller attaching several bridges in turn, the head of the list
    first. *)
Fixpoint attach_all (ctx : Context) (l : list (string * BridgePtr))
  : Context :=
  match l with
  | [] => ctx
  | (n, b) :: rest => attach_all (NewBridgeContextWithKey ctx b n) rest
  end.

(** The bridge a list of attachments gives a name last, if any. *)
Fixpoint latest (name : string) (l : list (string * BridgePtr))
  : option BridgePtr :=
  match l with
  | [] => None
  | (n, b) :: rest =>
      match latest name rest with
      | Some b' => Some b'
      | None => if String.eqb n name then Some b else None
      end
  end.

(* ===================================================================== *)
(** * Concrete clients and worlds, for evaluating the model *)
(* ===================================================================== *)

(** Collaborator types reduced to the least that can be run: unit
    resources and requests, error values that are messages. *)
Definition plain : Collaborators :=
  {| Playback := unit; LiveRecording := unit;
     PlayMediaRequest := unit; RecordRequest := unit;
     ErrorValue := string;
     zero_Playback := tt; zero_LiveRecording := tt |}.

(** A world in which nothing has happened yet and [uuid.New] is about to
    return the identifiers below. *)
Definition fresh_world : World (H := plain) :=
  {| uuid_source := fun n =>
       match n with
       | 0 => "3f2c1a9e-0b7d-4c55-9a10-5d6e7f809a1b"
       | _ => "c4d5e6f7-1a2b-4c3d-8e9f-001122334455"
       end;
     uuid_drawn := 0;
     wire := [] |}.

(** A server that answers every call with the empty JSON object: the
    call succeeds and decoding leaves the target as it was. *)
Definition empty_object_client : Client (H := plain) :=
  {| server := fun _ _ => {| decoded := fun _ m => m; failure := None |} |}.

(** A server that answers an upsert with a bridge named by the
    [bridgeId] of the request body. *)
Definition echoing_client : Client (H := plain) :=
  {| server := fun _ k =>
       {| decoded := fun t =>
            match t as t0 return pointee t0 -> pointee t0 with
            | ToBridge => fun m =>
                match call_body k with
                | CreateBridgeBody req =>
                    {| Bridge_class := Bridge_class m;
                       Bridge_type := "mixing";
                       Channels := Channels m;
                       Creator := Creator m;
                       Id := req_Id req;
                       Name := req_Name req;
                       Technology := "simple_bridge" |}
                | _ => m
                end
            | _ => fun m => m
            end;
          failure := None |} |}.

(** A server that is down: every call fails and nothing is decoded. *)
Definition failing_client : Client (H := plain) :=
  {| server := fun _ _ =>
       Build_Response (H := plain) (fun _ m => m)
         (Some "503 Service Unavailable") |}.

(** A carrier with a deadline layer, a layer keyed by the plain string
    "_default" (not a [bridgeKey]), and a layer keyed by a slice. *)
Definition busy_context : Context :=
  cancelCtx
    (valueCtx
       (valueCtx emptyCtx (of_uncomparable 7 0) (of_string "trace"))
       (of_string "_default") (of_BridgePtr (BridgeAt 9))).

(** A carrier in which the name "peer" holds a string, not a bridge. *)
Definition mistyped_context : Context :=
  valueCtx busy_context (of_bridgeKey "peer") (of_string "not a bridge").

(** A string given by its bytes. *)
Definition bytes (l : list N) : string :=
  string_of_list_ascii (map Ascii.ascii_of_N l).

(** The single byte FF, which starts no UTF-8 sequence. *)
Definition lone_ff : string :=
  String (Ascii.ascii_of_N 0xFF) EmptyString.

(** The single byte FE, which starts none either. *)
Definition lone_fe : string :=
  String (Ascii.ascii_of_N 0xFE) EmptyString.

(** The letter c followed by the byte C3, the start of a two-byte
    sequence that is cut short. *)
Definition c_cut_short : string :=
  String (Ascii.ascii_of_N 0x63) (String (Ascii.ascii_of_N 0xC3) EmptyString).

(** A server that breaks off in the middle of a reply: it has written
    one bridge into the target when the error comes. *)
Definition interrupted_client : Client (H := plain) :=
  {| server := fun _ _ =>
       Build_Response (H := plain)
         (fun t =>
            match t as t0 return pointee t0 -> pointee t0 with
            | ToBridges => fun m =>
                {| Bridge_class := ""; Bridge_type := "mixing";
                   Channels := []; Creator := ""; Id := "b-17";
                   Name := ""; Technology := "" |} :: m
            | _ => fun m => m
            end)
         (Some "unexpected EOF") |}.

(* ===================================================================== *)
(** * Facts about the controller *)
(* ===================================================================== *)

Section ControllerFacts.
Context `{Collaborators}.

(** Runs a controller function down to its round trip and splits on the
    [if err != nil] test. *)
Ltac run_controller :=
  cbn -[append];
  try (match goal with
       | |- context [failure ?r] => destruct (failure r)
       end);
  reflexivity.

Lemma round_trip_run (c : Client) (m : Method) (url : string) (t : target)
    (m0 : pointee t) (req : body) (w : World) :
  runState (round_trip c m url t m0 req) w
  = (let k := Build_Call m url t req in
     let r := server c (wire w) k in
     ((decoded r t m0, failure r), sent k w)).
Proof. reflexivity. Qed.

(** Every operation is exactly one round trip: it sends [call_of op],
    returns the transport's error and the value decoded into its
    variable, and leaves the identifier generator alone. *)
Lemma perform_run (c : Client) (op : operation) (w : World) :
  runState (perform c op) w
  = (let r := server c (wire w) (call_of op) in
     ((decoded_value op r, failure r), sent (call_of op) w)).
Proof. destruct op; run_controller. Qed.

Lemma call_of_table (op : operation) :
  (call_method (call_of op), call_url (call_of op)) = spec_wire_table op.
Proof. destruct op; reflexivity. Qed.

Lemma side_effect_only_decodes_nothing (op : operation) (r : Response) :
  side_effect_only op = true -> decoded_value op r = NoValue.
Proof. destruct op; simpl; intros E; try discriminate E; reflexivity. Qed.

Lemma uuid_New_run (w : World) :
  runState uuid_New w = (uuid_source w (uuid_drawn w), drew w).
Proof. reflexivity. Qed.

Lemma UpsertBridge_run (c : Client) (id : string)
    (req : CreateBridgeRequest) (w : World) :
  runState (UpsertBridge c id req) w
  = (let k := Build_Call POST ("/bridges/" ++ id) ToBridge
                (CreateBridgeBody req) in
     let r := server c (wire w) k in
     ((decoded r ToBridge zero_Bridge, failure r), sent k w)).
Proof. run_controller. Qed.

Lemma AddChannel_run (c : Client) (id : string) (req : AddChannelRequest)
    (w : World) :
  runState (AddChannel c id req) w
  = (let k := Build_Call POST ("/bridges/" ++ id ++ "/addChannel") NoTarget
                (AddChannelBody req) in
     (failure (server c (wire w) k), sent k w)).
Proof. run_controller. Qed.

Lemma PlayMusicOnHold_run (c : Client) (id mohClass : string) (w : World) :
  runState (PlayMusicOnHold c id mohClass) w
  = (let k := Build_Call POST ("/bridges/" ++ id ++ "/moh") NoTarget
                (PlayMusicOnHoldBody {| MohClass := mohClass |}) in
     (failure (server c (wire w) k), sent k w)).
Proof. run_controller. Qed.

Lemma NewBridge_unfold (c : Client) (w : World) :
  runState (NewBridge c) w
  = runState
      (UpsertBridge c (uuid_source w (uuid_drawn w))
         {| req_Id := uuid_source w (uuid_drawn w);
            req_Type := ""; req_Name := "" |})
      (drew w).
Proof. reflexivity. Qed.

(** C4.  Every operation of the bridge controller issues exactly one
    transport call, and the method and path of that call are the ones the
    wire table of the specification gives for the operation: the path is
    the resource root, the caller's id and the action suffix
    concatenated, whatever the id contains. *)
Theorem operation_issues_one_call_of_wire_table
    (c : Client) (op : operation) (w : World) :
  exists k : Call,
    wire (snd (runState (perform c op) w)) = wire w ++ [k]
    /\ call_method k = fst (spec_wire_table op)
    /\ call_url k = snd (spec_wire_table op).
Proof.
  exists (call_of op).
  rewrite perform_run; cbn [snd sent wire].
  split; [reflexivity |].
  rewrite <- call_of_table; split; reflexivity.
Qed.

(** The transport's answer to the single call of [NewBridge] is the
    function's answer. *)
Lemma NewBridge_run (c : Client) (w : World) :
  runState (NewBridge c) w
  = (let id := uuid_source w (uuid_drawn w) in
     let k := Build_Call POST ("/bridges/" ++ id) ToBridge
                (CreateBridgeBody
                   {| req_Id := id; req_Type := ""; req_Name := "" |}) in
     let r := server c (wire w) k in
     ((decoded r ToBridge zero_Bridge, failure r), sent k (drew w))).
Proof. rewrite NewBridge_unfold, UpsertBridge_run. reflexivity. Qed.

(** C5.  Whatever the transport answers to the one call of an operation,
    the operation answers the same: the transport's error when there is
    one; otherwise a nil error and exactly the decoded value.  The call
    is made once, also when it fails, and a side-effect-only operation
    has no value besides its error.  This holds for the twelve
    operations of the wire table and for [NewBridge]. *)
Theorem operation_returns_transport_outcome (c : Client) (w : World) :
  (forall op : operation,
     exists k : Call,
       wire (snd (runState (perform c op) w)) = wire w ++ [k]
       /\ match failure (server c (wire w) k) with
          | Some e => snd (fst (runState (perform c op) w)) = Some e
          | None =>
              snd (fst (runState (perform c op) w)) = None
              /\ fst (fst (runState (perform c op) w))
                 = decoded_value op (server c (wire w) k)
          end
       /\ (side_effect_only op = true ->
           fst (fst (runState (perform c op) w)) = NoValue))
  /\ (exists k : Call,
        wire (snd (runState (NewBridge c) w)) = wire w ++ [k]
        /\ match failure (server c (wire w) k) with
           | Some e => snd (fst (runState (NewBridge c) w)) = Some e
           | None =>
               snd (fst (runState (NewBridge c) w)) = None
               /\ fst (fst (runState (NewBridge c) w))
                  = decoded (server c (wire w) k) ToBridge zero_Bridge
           end).
Proof.
  split.
  - intros op. exists (call_of op).
    rewrite perform_run; cbn [fst snd sent wire].
    split; [reflexivity |].
    split.
    + destruct (failure (server c (wire w) (call_of op))) as [e|].
      * reflexivity.
      * split; reflexivity.
    + apply side_effect_only_decodes_nothing.
  - rewrite NewBridge_run; cbn zeta; cbn [fst snd sent drew wire].
    eexists. split; [reflexivity |].
    destruct (failure _) as [e|].
    + reflexivity.
    + split; reflexivity.
Qed.

(** C1 (amended).  [NewBridge] draws exactly one identifier and is
    [UpsertBridge] with that identifier as the path segment and as the
    [Id] of the request body.  The bridge it returns is the one the
    transport decoded from the reply to that single call, so it carries
    the identifier whenever the reply does. *)
Theorem NewBridge_upserts_generated_id (c : Client) (w : World) :
  let id := uuid_source w (uuid_drawn w) in
  let req := {| req_Id := id; req_Type := ""; req_Name := "" |} in
  let k := Build_Call POST ("/bridges/" ++ id) ToBridge
             (CreateBridgeBody req) in
  let r := server c (wire w) k in
  let out := runState (NewBridge c) w in
  out = runState (UpsertBridge c id req) (drew w)
  /\ uuid_drawn (snd out) = S (uuid_drawn w)
  /\ wire (snd out) = wire w ++ [k]
  /\ fst out = (decoded r ToBridge zero_Bridge, failure r)
  /\ (Id (decoded r ToBridge zero_Bridge) = id -> Id (fst (fst out)) = id).
Proof.
  intros id req k r out.
  assert (E : out = ((decoded r ToBridge zero_Bridge, failure r),
                     sent k (drew w))).
  { subst out. apply NewBridge_run. }
  split.
  - subst out. apply NewBridge_unfold.
  - rewrite E; cbn [fst snd sent drew uuid_drawn wire].
    repeat split; auto.
Qed.

End ControllerFacts.

(** A server that is down: the error comes back with the variable
    still at its zero value, and the call is on the wire once. *)
Example ListBridges_server_down :
  runState (ListBridges failing_client) fresh_world
  = (([], Some "503 Service Unavailable"),
     sent (Build_Call GET "/bridges" ToBridges NoBody) fresh_world).
Proof. reflexivity. Qed.

(** Deleting a bridge while the server is down: the theorem's answer
    at a concrete client, no value besides the error. *)
Lemma operation_returns_transport_outcome_witness :
  fst (fst (runState (perform failing_client (OpBridgeDelete "b1"))
              fresh_world))
  = NoValue.
Proof.
  destruct (proj1 (operation_returns_transport_outcome failing_client
                     fresh_world) (OpBridgeDelete "b1"))
    as [k [_ [_ V]]].
  apply V. reflexivity.
Defined.

(** An id with path delimiters goes into the path as it is. *)
Example GetBridge_id_with_delimiters :
  map (fun k => (call_method k, call_url k))
    (wire (snd (runState (GetBridge empty_object_client "a/../b?x=1")
                  fresh_world)))
  = [(GET, "/bridges/a/../b?x=1")].
Proof. reflexivity. Qed.

(** C1, as stated, fails: against a server whose reply to the upsert is
    the empty object, [NewBridge] succeeds and the bridge it returns
    does not carry the generated identifier. *)
Lemma NewBridge_reply_need_not_carry_id :
  snd (fst (runState (NewBridge empty_object_client) fresh_world)) = None
  /\ Id (fst (fst (runState (NewBridge empty_object_client) fresh_world)))
     <> uuid_source fresh_world (uuid_drawn fresh_world).
Proof.
  split.
  - reflexivity.
  - vm_compute. discriminate.
Qed.

(** Against a server that echoes the requested id, the returned bridge
    carries the generated identifier. *)
Lemma NewBridge_upserts_generated_id_witness :
  Id (fst (fst (runState (NewBridge echoing_client) fresh_world)))
  = "3f2c1a9e-0b7d-4c55-9a10-5d6e7f809a1b".
Proof.
  apply (proj2 (proj2 (proj2 (proj2
           (NewBridge_upserts_generated_id echoing_client fresh_world))))).
  reflexivity.
Defined.

(* ===================================================================== *)
(** * Facts about the request bodies *)
(* ===================================================================== *)

Section EncodingFacts.

(** On valid UTF-8 the encoder's loop copies the string. *)
Lemma encoded_from_valid (pending : nat) (s : string) :
  valid_from pending s = true -> encoded_from pending s = s.
Proof.
  revert pending. induction s as [|b rest IH]; intros pending V.
  - reflexivity.
  - cbn [valid_from encoded_from] in *.
    destruct pending as [|k].
    + destruct (rune_width b rest) as [[|k]|]; try discriminate V.
      rewrite (IH k V). reflexivity.
    + rewrite (IH k V). reflexivity.
Qed.

Lemma encoded_string_valid (s : string) :
  ValidString s = true -> encoded_string s = s.
Proof. apply encoded_from_valid. Qed.

(** Text in plain ASCII is valid UTF-8. *)
Lemma ascii_is_valid (s : string) :
  forallb (fun b => (Ascii.N_of_ascii b <? 0x80)%N) (list_ascii_of_string s)
  = true ->
  ValidString s = true.
Proof.
  unfold ValidString.
  induction s as [|b rest IH]; cbn [list_ascii_of_string forallb valid_from].
  - reflexivity.
  - intros A. apply andb_prop in A as [Ab Arest].
    unfold rune_width, first. rewrite Ab. cbn. exact (IH Arest).
Qed.

(** The encoder on runes of every width, and on the ways a sequence can
    be wrong: each byte that starts no valid sequence gives one U+FFFD,
    and U+FFFD itself, validly encoded, is kept. *)
Example encoded_string_cases :
  encoded_string (bytes [0x63; 0xC3; 0xA9]%N) = bytes [0x63; 0xC3; 0xA9]%N
  /\ encoded_string (bytes [0xE2; 0x82; 0xAC]%N) = bytes [0xE2; 0x82; 0xAC]%N
  /\ encoded_string (bytes [0xF0; 0x9F; 0x98; 0x80]%N)
     = bytes [0xF0; 0x9F; 0x98; 0x80]%N
  /\ encoded_string (bytes [0xEF; 0xBF; 0xBD]%N) = bytes [0xEF; 0xBF; 0xBD]%N
  /\ encoded_string (bytes [0xFF]%N) = replacement_char
  /\ encoded_string (bytes [0x63; 0xC3]%N)
     = bytes [0x63; 0xEF; 0xBF; 0xBD]%N
  /\ encoded_string (bytes [0xC0; 0x80]%N)
     = (replacement_char ++ replacement_char)%string
  /\ encoded_string (bytes [0xED; 0xA0; 0x80]%N)
     = (replacement_char ++ replacement_char ++ replacement_char)%string
  /\ encoded_string (bytes [0xE2; 0x82; 0x41]%N)
     = (replacement_char ++ replacement_char ++ "A")%string
  /\ encoded_string (bytes [0xF4; 0x90; 0x80; 0x80]%N)
     = (replacement_char ++ replacement_char ++ replacement_char
        ++ replacement_char)%string.
Proof. repeat split. Qed.

Lemma isEmptyValue_spec (s : string) : isEmptyValue s = true <-> s = "".
Proof.
  destruct s as [|a s]; cbn; split; intros E; try reflexivity;
    discriminate E.
Qed.

Lemma keys_app (j1 j2 : json_object) : keys (j1 ++ j2) = keys j1 ++ keys j2.
Proof. apply map_app. Qed.

Lemma encode_field_keys (f : field) (k : string) :
  In k (keys (encode_field f)) -> k = json_key f.
Proof.
  unfold encode_field.
  destruct (omitempty f && isEmptyValue (field_value f)); cbn.
  - intros [].
  - intros [E | []]; symmetry; exact E.
Qed.

Lemma encode_field_omitted (f : field) :
  omitempty f = true -> field_value f = "" -> encode_field f = [].
Proof.
  intros O E. unfold encode_field. rewrite O, E. reflexivity.
Qed.

(** A key of the encoding is the key of some field. *)
Lemma keys_come_from_fields (fs : list field) (k : string) :
  In k (keys (flat_map encode_field fs)) -> In k (map json_key fs).
Proof.
  induction fs as [|g fs IH]; cbn [flat_map map].
  - intros [].
  - rewrite keys_app, in_app_iff.
    intros [Hg | Hrest].
    + left. symmetry. apply encode_field_keys, Hg.
    + right. apply IH, Hrest.
Qed.

Lemma member_absent (k : string) (j : json_object) :
  ~ In k (keys j) -> member k j = None.
Proof.
  unfold member, keys.
  induction j as [|[k' v] j IH]; cbn; intros N.
  - reflexivity.
  - destruct (String.eqb_spec k' k) as [E | _].
    + exfalso. apply N. left. exact E.
    + apply IH. intros I. apply N. right. exact I.
Qed.

(** Among fields with distinct keys, one that is tagged [omitempty] and
    is empty leaves no trace of its key. *)
Lemma omitted_key_absent (fs : list field) (f : field) :
  NoDup (map json_key fs) -> In f fs ->
  omitempty f = true -> field_value f = "" ->
  ~ In (json_key f) (keys (flat_map encode_field fs)).
Proof.
  intros D; induction fs as [|g fs IH]; intros I O E.
  - destruct I.
  - cbn [flat_map map] in *.
    apply NoDup_cons_iff in D as [Dg Dfs].
    rewrite keys_app, in_app_iff.
    destruct I as [-> | I].
    + rewrite (encode_field_omitted f O E). cbn.
      intros [[] | K]. apply Dg, keys_come_from_fields, K.
    + intros [K | K].
      * apply encode_field_keys in K.
        apply Dg. rewrite <- K. apply in_map, I.
      * exact (IH Dfs I O E K).
Qed.

Example Marshal_name_only :
  Marshal {| req_Id := ""; req_Type := ""; req_Name := "conf-7" |}
  = [("name", JString "conf-7")].
Proof. reflexivity. Qed.

Example Marshal_empty_channel :
  Marshal {| ChannelId := ""; Role := "" |} = [("channel", JString "")].
Proof. reflexivity. Qed.

Example Marshal_several_channels :
  Marshal {| ChannelId := "c1,c2,c3"; Role := "announcer" |}
  = [("channel", JString "c1,c2,c3"); ("role", JString "announcer")].
Proof. reflexivity. Qed.

(** C3.  A [CreateBridgeRequest] with only [Name] set encodes to the
    object holding the name alone (as the encoder writes it, which is
    the name itself when it is valid UTF-8): no [bridgeId] key and no
    [type] key.
    In general, in a request struct whose fields have distinct keys, a
    field marked [omitempty] that is unset (empty) is absent from the
    encoding: its key is no key of the object, and no member, null or
    empty, is stored under it. *)
Theorem unset_omitempty_fields_are_absent :
  (forall name : string,
     let j := Marshal {| req_Id := ""; req_Type := ""; req_Name := name |} in
     ~ In "bridgeId" (keys j) /\ ~ In "type" (keys j)
     /\ member "bridgeId" j = None /\ member "type" j = None
     /\ (name <> "" -> j = [("name", JString (encoded_string name))])
     /\ (name <> "" -> ValidString name = true ->
         j = [("name", JString name)]))
  /\ (forall (T : Type) (tags : Tagged T) (v : T) (f : field),
        NoDup (map json_key (fields v)) -> In f (fields v) ->
        omitempty f = true -> field_value f = "" ->
        ~ In (json_key f) (keys (Marshal v))
        /\ member (json_key f) (Marshal v) = None).
Proof.
  split.
  - intros name j.
    assert (J : j = encode_field {| json_key := "name"; omitempty := true;
                                    field_value := name |}).
    { subst j. unfold Marshal. cbn. apply app_nil_r. }
    assert (K : forall k, k <> "name" -> ~ In k (keys j)).
    { intros k Nk I. rewrite J in I. apply encode_field_keys in I.
      exact (Nk I). }
    repeat split.
    + apply K; discriminate.
    + apply K; discriminate.
    + apply member_absent, K; discriminate.
    + apply member_absent, K; discriminate.
    + intros Nn. rewrite J. unfold encode_field.
      cbn [omitempty field_value json_key andb].
      destruct (isEmptyValue name) eqn:E; [| reflexivity].
      apply isEmptyValue_spec in E. contradiction.
    + intros Nn V. rewrite J. unfold encode_field.
      cbn [omitempty field_value json_key andb].
      rewrite (encoded_string_valid name V).
      destruct (isEmptyValue name) eqn:E; [| reflexivity].
      apply isEmptyValue_spec in E. contradiction.
  - intros T tags v f D I O E.
    assert (A : ~ In (json_key f) (keys (Marshal v))).
    { unfold Marshal. apply omitted_key_absent; assumption. }
    split; [exact A | apply member_absent, A].
Qed.

(** The request structs of bridges.go have distinct keys. *)
Lemma request_structs_have_distinct_keys :
  (forall r : CreateBridgeRequest, NoDup (map json_key (fields r)))
  /\ (forall r : AddChannelRequest, NoDup (map json_key (fields r)))
  /\ (forall r : RemoveChannel_request, NoDup (map json_key (fields r)))
  /\ (forall r : PlayMusicOnHold_request, NoDup (map json_key (fields r))).
Proof.
  repeat split; intros r; cbn;
    repeat (constructor; [cbn; intuition discriminate |]);
    constructor.
Qed.

Lemma unset_omitempty_fields_are_absent_witness :
  ~ In "role" (keys (Marshal {| ChannelId := "1700000000.42"; Role := "" |}))
  /\ member "role" (Marshal {| ChannelId := "1700000000.42"; Role := "" |})
     = None.
Proof.
  apply (proj2 unset_omitempty_fields_are_absent
           AddChannelRequest _
           {| ChannelId := "1700000000.42"; Role := "" |}
           {| json_key := "role"; omitempty := true; field_value := "" |}).
  - apply request_structs_have_distinct_keys.
  - cbn. right. left. reflexivity.
  - reflexivity.
  - reflexivity.
Defined.

End EncodingFacts.

Section BodyFacts.
Context `{Collaborators}.

Lemma Marshal_moh (cls : string) :
  Marshal {| MohClass := cls |}
  = if isEmptyValue cls then []
    else [("mohClass", JString (encoded_string cls))].
Proof.
  unfold Marshal, encode_field; cbn [fields Tagged_PlayMusicOnHold_request
    flat_map omitempty field_value json_key andb MohClass].
  destruct (isEmptyValue cls); reflexivity.
Qed.

Lemma Marshal_AddChannelRequest (req : AddChannelRequest) :
  Marshal req
  = ("channel", JString (encoded_string (ChannelId req)))
      :: (if isEmptyValue (Role req) then []
          else [("role", JString (encoded_string (Role req)))]).
Proof.
  unfold Marshal, encode_field; cbn [fields Tagged_AddChannelRequest
    flat_map omitempty field_value json_key andb app].
  destruct (isEmptyValue (Role req)); reflexivity.
Qed.

(** C8 (amended).  [PlayMusicOnHold] makes one POST to the bridge's
    [moh] path with its one-field request struct as the body.  With an
    empty class that body encodes to the empty object, with no
    [mohClass] key at all; with a non-empty class it encodes to exactly
    the object with the single member [mohClass], holding the class as
    the encoder writes it: every byte that starts no valid UTF-8
    sequence replaced by U+FFFD, hence the class itself when it is valid
    UTF-8. *)
Theorem PlayMusicOnHold_sends_class_only_when_given
    (c : Client) (id mohClass : string) (w : World) :
  exists req : PlayMusicOnHold_request,
    wire (snd (runState (PlayMusicOnHold c id mohClass) w))
    = wire w ++ [Build_Call POST ("/bridges/" ++ id ++ "/moh") NoTarget
                   (PlayMusicOnHoldBody req)]
    /\ (mohClass = "" ->
        Marshal req = [] /\ ~ In "mohClass" (keys (Marshal req)))
    /\ (mohClass <> "" ->
        Marshal req = [("mohClass", JString (encoded_string mohClass))])
    /\ (mohClass <> "" -> ValidString mohClass = true ->
        Marshal req = [("mohClass", JString mohClass)]).
Proof.
  exists {| MohClass := mohClass |}.
  rewrite PlayMusicOnHold_run; cbn [snd sent wire].
  split; [reflexivity |].
  rewrite Marshal_moh.
  split; [| split].
  - intros ->. cbn. split; [reflexivity | intros []].
  - intros N. destruct (isEmptyValue mohClass) eqn:E; [| reflexivity].
    apply isEmptyValue_spec in E. contradiction.
  - intros N V. rewrite (encoded_string_valid mohClass V).
    destruct (isEmptyValue mohClass) eqn:E; [| reflexivity].
    apply isEmptyValue_spec in E. contradiction.
Qed.

(** C9 (amended).  [AddChannel] makes its one POST for every request,
    whatever [ChannelId] holds, with the request itself as the body; the
    only error it can return is the transport's.  The body always has
    the key [channel], and under it [ChannelId] whole, never split: as
    it is when it is valid UTF-8, and otherwise with every byte that
    starts no valid UTF-8 sequence replaced by U+FFFD.  The key [role]
    is there exactly when [Role] is not empty. *)
Theorem AddChannel_sends_channel_verbatim
    (c : Client) (id : string) (req : AddChannelRequest) (w : World) :
  let k := Build_Call POST ("/bridges/" ++ id ++ "/addChannel") NoTarget
             (AddChannelBody req) in
  wire (snd (runState (AddChannel c id req) w)) = wire w ++ [k]
  /\ fst (runState (AddChannel c id req) w) = failure (server c (wire w) k)
  /\ member "channel" (Marshal req)
     = Some (JString (encoded_string (ChannelId req)))
  /\ (ValidString (ChannelId req) = true ->
      member "channel" (Marshal req) = Some (JString (ChannelId req)))
  /\ (In "role" (keys (Marshal req)) <-> Role req <> "")
  /\ Marshal req
     = ("channel", JString (encoded_string (ChannelId req)))
         :: (if isEmptyValue (Role req) then []
             else [("role", JString (encoded_string (Role req)))]).
Proof.
  intros k. rewrite AddChannel_run; cbn [fst snd sent wire].
  rewrite Marshal_AddChannelRequest.
  split; [reflexivity |]. split; [reflexivity |].
  split; [reflexivity |].
  split; [| split; [split |]].
  - intros V. rewrite (encoded_string_valid _ V). reflexivity.
  - destruct (isEmptyValue (Role req)) eqn:E; cbn.
    + intros [D | []]; discriminate D.
    + intros _ R. apply isEmptyValue_spec in R. congruence.
  - intros N. destruct (isEmptyValue (Role req)) eqn:E; cbn.
    + apply isEmptyValue_spec in E. contradiction.
    + right. left. reflexivity.
  - reflexivity.
Qed.

End BodyFacts.

(** C8, as stated, fails: for the class made of the byte FF alone the
    body holds U+FFFD under [mohClass], not the class. *)
Lemma PlayMusicOnHold_invalid_class_is_replaced :
  wire (snd (runState (PlayMusicOnHold empty_object_client "b1" lone_ff)
               fresh_world))
  = [Build_Call (H := plain) POST "/bridges/b1/moh" NoTarget
       (PlayMusicOnHoldBody {| MohClass := lone_ff |})]
  /\ lone_ff <> ""
  /\ Marshal {| MohClass := lone_ff |}
     = [("mohClass", JString replacement_char)]
  /\ Marshal {| MohClass := lone_ff |} <> [("mohClass", JString lone_ff)].
Proof.
  split; [reflexivity |]. split; [discriminate |].
  split; [reflexivity |]. vm_compute. discriminate.
Qed.

(** A class in plain ASCII is sent as it is. *)
Lemma PlayMusicOnHold_sends_class_only_when_given_witness :
  exists req : PlayMusicOnHold_request,
    wire (snd (runState (PlayMusicOnHold empty_object_client "b1" "jazz")
                 fresh_world))
    = [Build_Call (H := plain) POST "/bridges/b1/moh" NoTarget
         (PlayMusicOnHoldBody req)]
    /\ Marshal req = [("mohClass", JString "jazz")].
Proof.
  destruct (@PlayMusicOnHold_sends_class_only_when_given plain
              empty_object_client "b1" "jazz" fresh_world)
    as [req [W [_ [_ V]]]].
  exists req. split.
  - exact W.
  - apply V; [discriminate | reflexivity].
Defined.

(** C9, as stated, fails: a channel id that ends in the byte C3 is not
    in the body as it was given; the body holds U+FFFD in place of that
    byte. *)
Lemma AddChannel_invalid_channel_is_replaced :
  wire (snd (runState (AddChannel empty_object_client "b1"
                         {| ChannelId := c_cut_short; Role := "" |})
               fresh_world))
  = [Build_Call (H := plain) POST "/bridges/b1/addChannel" NoTarget
       (AddChannelBody {| ChannelId := c_cut_short; Role := "" |})]
  /\ member "channel" (Marshal {| ChannelId := c_cut_short; Role := "" |})
     = Some (JString ("c" ++ replacement_char))
  /\ member "channel" (Marshal {| ChannelId := c_cut_short; Role := "" |})
     <> Some (JString c_cut_short).
Proof.
  split; [reflexivity |]. split; [reflexivity |].
  vm_compute. discriminate.
Qed.

(** Several channel ids in one comma-separated value go out as given. *)
Lemma AddChannel_sends_channel_verbatim_witness :
  member "channel" (Marshal {| ChannelId := "c1,c2,c3"; Role := "" |})
  = Some (JString "c1,c2,c3").
Proof.
  apply (proj1 (proj2 (proj2 (proj2
           (@AddChannel_sends_channel_verbatim plain empty_object_client
              "b1" {| ChannelId := "c1,c2,c3"; Role := "" |}
              fresh_world))))).
  reflexivity.
Defined.

(* ===================================================================== *)
(** * Facts about context propagation *)
(* ===================================================================== *)

Section ContextFacts.

(** A lookup can panic: under a slice key, on a carrier that holds a
    key of the same slice type. *)
Example Value_slice_key_panics :
  Value busy_context (of_uncomparable 7 1) = Panic.
Proof. reflexivity. Qed.

(** The plain string "_default" is not the [bridgeKey] "_default". *)
Example string_key_is_not_bridgeKey :
  Value busy_context (of_string "_default") = Done (of_BridgePtr (BridgeAt 9))
  /\ BridgeFromContext busy_context = Done (nilBridge, false).
Proof. split; reflexivity. Qed.

(** Comparing any stored key with a [bridgeKey] never panics, and only
    a [bridgeKey] of the same name compares equal. *)
Lemma iface_eq_bridgeKey (k : any) (name : string) :
  iface_eq k (of_bridgeKey name)
  = Done (match k with
          | of_bridgeKey n => String.eqb n name
          | _ => false
          end).
Proof. destruct k; reflexivity. Qed.

Lemma Value_bridgeKey_done (ctx : Context) (name : string) :
  exists x : any, Value ctx (of_bridgeKey name) = Done x.
Proof.
  induction ctx as [| parent IH | parent IH k v]; cbn [Value].
  - exists nil_any; reflexivity.
  - exact IH.
  - rewrite iface_eq_bridgeKey.
    destruct k; try exact IH.
    destruct (String.eqb name0 name); [exists v; reflexivity | exact IH].
Qed.

Lemma Value_unattached (ctx : Context) (name : string) :
  attached ctx name = false -> Value ctx (of_bridgeKey name) = Done nil_any.
Proof.
  induction ctx as [| parent IH | parent IH k v]; cbn [Value attached].
  - reflexivity.
  - exact IH.
  - rewrite iface_eq_bridgeKey.
    destruct k; try exact IH.
    destruct (String.eqb name0 name); cbn [orb].
    + discriminate.
    + exact IH.
Qed.

Lemma Value_WithValue_same (ctx : Context) (name : string) (v : any) :
  Value (WithValue ctx (of_bridgeKey name) v) (of_bridgeKey name) = Done v.
Proof.
  cbn [WithValue Value iface_eq]. rewrite String.eqb_refl. reflexivity.
Qed.

Lemma Value_WithValue_other (ctx : Context) (n m : string) (v : any) :
  n <> m ->
  Value (WithValue ctx (of_bridgeKey n) v) (of_bridgeKey m)
  = Value ctx (of_bridgeKey m).
Proof.
  intros D. cbn [WithValue Value iface_eq].
  destruct (String.eqb_spec n m) as [E | _]; [contradiction | reflexivity].
Qed.

Lemma BridgeFromContextWithKey_same (ctx : Context) (b : BridgePtr)
    (name : string) :
  BridgeFromContextWithKey (NewBridgeContextWithKey ctx b name) name
  = Done (b, true).
Proof.
  unfold BridgeFromContextWithKey, NewBridgeContextWithKey.
  rewrite Value_WithValue_same. reflexivity.
Qed.

Lemma BridgeFromContextWithKey_other (ctx : Context) (b : BridgePtr)
    (n m : string) :
  n <> m ->
  BridgeFromContextWithKey (NewBridgeContextWithKey ctx b n) m
  = BridgeFromContextWithKey ctx m.
Proof.
  intros D. unfold BridgeFromContextWithKey, NewBridgeContextWithKey.
  rewrite (Value_WithValue_other ctx _ D). reflexivity.
Qed.

Lemma BridgeFromContextWithKey_unattached (ctx : Context) (name : string) :
  attached ctx name = false ->
  BridgeFromContextWithKey ctx name = Done (nilBridge, false).
Proof.
  intros U. unfold BridgeFromContextWithKey.
  rewrite (Value_unattached ctx name U). reflexivity.
Qed.

(** A value layer is never the carrier it was put on. *)
Lemma valueCtx_is_new (parent : Context) (k v : any) :
  valueCtx parent k v <> parent.
Proof.
  revert k v.
  induction parent as [| p IH | p IH k' v']; intros k v E.
  - discriminate E.
  - discriminate E.
  - injection E as Ep _ _. exact (IH k' v' Ep).
Qed.

(** C2.  Attaching a bridge under the default name and reading the
    default name back gives that bridge and [true]; a carrier to which
    nothing is attached under the default name gives the nil pointer and
    [false]; and the carrier with the attachment is a new one, a single
    layer on top of the original, which is kept as it was. *)
Theorem attach_then_retrieve_default (ctx : Context) (b : BridgePtr) :
  BridgeFromContext (NewBridgeContext ctx b) = Done (b, true)
  /\ (attached ctx "_default" = false ->
      BridgeFromContext ctx = Done (nilBridge, false))
  /\ NewBridgeContext ctx b <> ctx
  /\ layers (NewBridgeContext ctx b) = NewBridgeContext ctx b :: layers ctx.
Proof.
  split; [| split; [| split]].
  - apply BridgeFromContextWithKey_same.
  - apply BridgeFromContextWithKey_unattached.
  - apply valueCtx_is_new.
  - reflexivity.
Qed.

Lemma attach_then_retrieve_default_witness :
  BridgeFromContext busy_context = Done (nilBridge, false).
Proof.
  apply (proj1 (proj2 (attach_then_retrieve_default busy_context nilBridge))).
  reflexivity.
Defined.

(** C6.  [BridgeFromContextWithKey] returns a result for every carrier
    and every name, without panicking; when nothing is attached under
    the name, or what is stored under it is not a [*Bridge], the result
    is the nil pointer with a [false] flag. *)
Theorem BridgeFromContextWithKey_never_faults (ctx : Context)
    (name : string) :
  (exists r : BridgePtr * bool,
     BridgeFromContextWithKey ctx name = Done r)
  /\ (attached ctx name = false ->
      BridgeFromContextWithKey ctx name = Done (nilBridge, false))
  /\ (forall x : any,
        Value ctx (of_bridgeKey name) = Done x -> is_BridgePtr x = false ->
        BridgeFromContextWithKey ctx name = Done (nilBridge, false)).
Proof.
  split; [| split].
  - destruct (Value_bridgeKey_done ctx name) as [x V].
    exists (assert_BridgePtr x).
    unfold BridgeFromContextWithKey. rewrite V. reflexivity.
  - apply BridgeFromContextWithKey_unattached.
  - intros x V T. unfold BridgeFromContextWithKey. rewrite V.
    destruct x; try reflexivity. discriminate T.
Qed.

Lemma BridgeFromContextWithKey_never_faults_witness :
  BridgeFromContextWithKey mistyped_context "peer" = Done (nilBridge, false)
  /\ BridgeFromContextWithKey mistyped_context "absent"
     = Done (nilBridge, false).
Proof.
  split.
  - apply (proj2 (proj2
             (BridgeFromContextWithKey_never_faults mistyped_context "peer"))
             (of_string "not a bridge")); reflexivity.
  - apply (proj1 (proj2
             (BridgeFromContextWithKey_never_faults mistyped_context
                "absent"))); reflexivity.
Defined.

(** C7.  With one bridge attached under the default name and then
    another under a different name, both are retrievable, each under its
    own name; and attaching under a name changes, on any carrier, the
    lookup under no other name. *)
Theorem named_attachments_coexist (ctx : Context) (b1 b2 : BridgePtr)
    (n : string) :
  n <> "_default" ->
  BridgeFromContext
    (NewBridgeContextWithKey (NewBridgeContext ctx b1) b2 n)
  = Done (b1, true)
  /\ BridgeFromContextWithKey
       (NewBridgeContextWithKey (NewBridgeContext ctx b1) b2 n) n
     = Done (b2, true)
  /\ (forall (ctx' : Context) (b : BridgePtr) (m : string), m <> n ->
        BridgeFromContextWithKey (NewBridgeContextWithKey ctx' b n) m
        = BridgeFromContextWithKey ctx' m).
Proof.
  intros D. split; [| split].
  - unfold BridgeFromContext.
    rewrite (BridgeFromContextWithKey_other _ b2 D).
    apply BridgeFromContextWithKey_same.
  - apply BridgeFromContextWithKey_same.
  - intros ctx' b m Dm. apply BridgeFromContextWithKey_other.
    intros E. apply Dm. symmetry. exact E.
Qed.

Lemma named_attachments_coexist_witness :
  BridgeFromContext
    (NewBridgeContextWithKey (NewBridgeContext busy_context (BridgeAt 1))
       (BridgeAt 2) "peer")
  = Done (BridgeAt 1, true)
  /\ BridgeFromContextWithKey
       (NewBridgeContextWithKey (NewBridgeContext busy_context (BridgeAt 1))
          (BridgeAt 2) "peer") "peer"
     = Done (BridgeAt 2, true).
Proof.
  pose proof (named_attachments_coexist busy_context (BridgeAt 1)
                (BridgeAt 2) (n := "peer")) as W.
  destruct W as [W1 [W2 _]].
  - discriminate.
  - split; [exact W1 | exact W2].
Defined.

(** C10.  Attaching the nil pointer under a name and reading the name
    back gives the nil pointer with a [true] flag: the flag says that
    something is attached, not that it points to a bridge. *)
Theorem nil_bridge_is_found (ctx : Context) (name : string) :
  BridgeFromContextWithKey (NewBridgeContextWithKey ctx nilBridge name) name
  = Done (nilBridge, true).
Proof. apply BridgeFromContextWithKey_same. Qed.

End ContextFacts.

(* ===================================================================== *)
(** * Further facts about the controller *)
(* ===================================================================== *)

Section PathFacts.

Lemma length_append (s t : string) :
  String.length (s ++ t) = String.length s + String.length t.
Proof.
  induction s as [|a s IH]; cbn.
  - reflexivity.
  - rewrite IH. reflexivity.
Qed.

Lemma append_assoc (s t u : string) : ((s ++ t) ++ u = s ++ t ++ u)%string.
Proof.
  induction s as [|a s IH]; cbn.
  - reflexivity.
  - rewrite IH. reflexivity.
Qed.

(** A common prefix can be dropped from two equal paths. *)
Lemma append_inv_head (p s t : string) :
  (p ++ s = p ++ t)%string -> s = t.
Proof.
  induction p as [|a p IH]; cbn; intros E.
  - exact E.
  - injection E as E. exact (IH E).
Qed.

(** A common suffix can be dropped from two equal paths. *)
Lemma append_inv_tail (s t u : string) :
  (s ++ u = t ++ u)%string -> s = t.
Proof.
  revert t. induction s as [|a s IH]; intros [|b t] E; cbn in E.
  - reflexivity.
  - exfalso. apply (f_equal String.length) in E.
    cbn in E. rewrite length_append in E. lia.
  - exfalso. apply (f_equal String.length) in E.
    cbn in E. rewrite length_append in E. lia.
  - injection E as -> E. f_equal. exact (IH t E).
Qed.

Lemma bridge_path_inj (id1 id2 suffix : string) :
  ("/bridges/" ++ id1 ++ suffix = "/bridges/" ++ id2 ++ suffix)%string ->
  id1 = id2.
Proof.
  intros E. apply append_inv_head in E. exact (append_inv_tail _ _ _ E).
Qed.

End PathFacts.

Section SequencingFacts.
Context `{Collaborators}.

(** Running one statement after another: the second starts in the world
    the first left. *)
Lemma run_bind {A B : Type} (p : IO A) (q : A -> IO B) (w : World) :
  runState (x <- p ;; q x) w
  = runState (q (fst (runState p w))) (snd (runState p w)).
Proof. cbn. destruct (runState p w) as [a w']. reflexivity. Qed.

(** Runs a function of bridges.go and reads its paths off the wire. *)
Ltac read_wire :=
  unfold requests; cbn -[append];
  repeat (match goal with
          | |- context [failure ?r] => destruct (failure r)
          end;
          cbn -[append]);
  rewrite ?map_app; cbn -[append].

Ltac same_path :=
  let E := fresh "E" in
  let P := fresh "P" in
  intros E; apply app_inv_head in E; injection E as P;
  repeat (apply append_inv_head in P);
  first [ exact P | exact (append_inv_tail _ _ _ P) | congruence ].

(** X1.  With the other arguments fixed, the path an operation requests
    determines the bridge id it was given: two ids that differ are
    never sent to the same path.  The same holds for the playback id of
    [PlayToBridgeById] on one bridge. *)
Theorem bridge_id_determines_path (c : Client) (w : World)
    (id1 id2 : string) :
  (forall r1 r2, requests (UpsertBridge c id1 r1) w
                 = requests (UpsertBridge c id2 r2) w -> id1 = id2)
  /\ (requests (GetBridge c id1) w = requests (GetBridge c id2) w ->
      id1 = id2)
  /\ (forall r1 r2, requests (AddChannel c id1 r1) w
                    = requests (AddChannel c id2 r2) w -> id1 = id2)
  /\ (forall ch1 ch2, requests (RemoveChannel c id1 ch1) w
                      = requests (RemoveChannel c id2 ch2) w -> id1 = id2)
  /\ (forall m1 m2, requests (PlayMusicOnHold c id1 m1) w
                    = requests (PlayMusicOnHold c id2 m2) w -> id1 = id2)
  /\ (forall r1 r2, requests (PlayToBridge c id1 r1) w
                    = requests (PlayToBridge c id2 r2) w -> id1 = id2)
  /\ (forall pb r1 r2, requests (PlayToBridgeById c id1 pb r1) w
                       = requests (PlayToBridgeById c id2 pb r2) w ->
      id1 = id2)
  /\ (forall id r1 r2, requests (PlayToBridgeById c id id1 r1) w
                       = requests (PlayToBridgeById c id id2 r2) w ->
      id1 = id2)
  /\ (forall r1 r2, requests (RecordBridge c id1 r1) w
                    = requests (RecordBridge c id2 r2) w -> id1 = id2)
  /\ (requests (BridgeDelete c id1) w = requests (BridgeDelete c id2) w ->
      id1 = id2)
  /\ (requests (BridgeStopMoh c id1) w = requests (BridgeStopMoh c id2) w ->
      id1 = id2).
Proof.
  repeat split; intros;
    match goal with
    | E : requests _ _ = requests _ _ |- _ => revert E
    end;
    read_wire; same_path.
Qed.

(** X2.  Two operations run one after the other put exactly their two
    calls on the wire, in program order.  The second call is made
    whether or not the first failed; its answer is the server's response
    with the first call in the history; and neither draws an
    identifier. *)
Theorem operations_compose_in_order (c : Client) (op1 op2 : operation)
    (w : World) :
  let prog := (a1 <- perform c op1 ;; a2 <- perform c op2 ;; ret (a1, a2)) in
  let r1 := server c (wire w) (call_of op1) in
  let r2 := server c (wire w ++ [call_of op1]) (call_of op2) in
  wire (snd (runState prog w)) = wire w ++ [call_of op1; call_of op2]
  /\ answer prog w
     = ((decoded_value op1 r1, failure r1), (decoded_value op2 r2, failure r2))
  /\ uuid_drawn (snd (runState prog w)) = uuid_drawn w.
Proof.
  intros prog r1 r2. unfold answer. subst prog.
  rewrite run_bind, perform_run; cbn [fst snd].
  rewrite run_bind, perform_run; cbn [fst snd sent wire uuid_drawn].
  cbn. rewrite <- app_assoc. repeat split.
Qed.

(** X3.  When the transport fails, an operation hands back, beside the
    error, whatever the transport had written into the result variable
    before failing: the value is not reset to its zero value. *)
Theorem failed_operation_keeps_decoded_value (c : Client)
    (op : operation) (w : World) (e : ErrorValue) :
  failure (server c (wire w) (call_of op)) = Some e ->
  answer (perform c op) w
  = (decoded_value op (server c (wire w) (call_of op)), Some e).
Proof.
  intros F. unfold answer. rewrite perform_run; cbn [fst].
  rewrite F. reflexivity.
Qed.

(** X4.  Two calls of [NewBridge] in a row draw two successive
    identifiers and upsert each under its own: two calls on the wire,
    each with its identifier in the path and in the body, sent to
    different paths whenever the two identifiers differ. *)
Theorem successive_NewBridge_use_successive_ids (c : Client) (w : World) :
  let prog := (a <- NewBridge c ;; b <- NewBridge c ;; ret (a, b)) in
  let call := fun id : string =>
    Build_Call POST ("/bridges/" ++ id) ToBridge
      (CreateBridgeBody {| req_Id := id; req_Type := ""; req_Name := "" |}) in
  let id1 := uuid_source w (uuid_drawn w) in
  let id2 := uuid_source w (S (uuid_drawn w)) in
  wire (snd (runState prog w)) = wire w ++ [call id1; call id2]
  /\ uuid_drawn (snd (runState prog w)) = S (S (uuid_drawn w))
  /\ (id1 <> id2 -> call_url (call id1) <> call_url (call id2)).
Proof.
  intros prog call id1 id2. subst prog.
  rewrite run_bind, NewBridge_run; cbn [fst snd].
  rewrite run_bind, NewBridge_run;
    cbn [fst snd sent drew wire uuid_drawn uuid_source].
  cbn -[append]. rewrite <- app_assoc. repeat split.
  intros D E. apply D. subst call. cbn -[append] in E.
  exact (append_inv_head _ _ _ E).
Qed.

(** X5.  The body [NewBridge] sends never has a [type] or a [name]
    member, so the server's defaults apply to both; it is exactly the
    object with the generated identifier, as the encoder writes it,
    under [bridgeId] (the identifier itself when it is valid UTF-8, as
    the hexadecimal identifiers of the generator are), and the empty
    object should the generator return the empty string. *)
Theorem NewBridge_sends_only_bridgeId (c : Client) (w : World) :
  exists req : CreateBridgeRequest,
    wire (snd (runState (NewBridge c) w))
    = wire w ++ [Build_Call POST ("/bridges/" ++ uuid_source w (uuid_drawn w))
                   ToBridge (CreateBridgeBody req)]
    /\ ~ In "type" (keys (Marshal req))
    /\ ~ In "name" (keys (Marshal req))
    /\ (uuid_source w (uuid_drawn w) <> "" ->
        Marshal req
        = [("bridgeId",
            JString (encoded_string (uuid_source w (uuid_drawn w))))])
    /\ (uuid_source w (uuid_drawn w) <> "" ->
        ValidString (uuid_source w (uuid_drawn w)) = true ->
        Marshal req
        = [("bridgeId", JString (uuid_source w (uuid_drawn w)))])
    /\ (uuid_source w (uuid_drawn w) = "" -> Marshal req = []).
Proof.
  eexists. rewrite NewBridge_run; cbn [snd sent drew wire].
  split; [reflexivity |].
  set (id := uuid_source w (uuid_drawn w)).
  assert (M : Marshal {| req_Id := id; req_Type := ""; req_Name := "" |}
              = if isEmptyValue id then []
                else [("bridgeId", JString (encoded_string id))]).
  { unfold Marshal, encode_field; cbn [fields Tagged_CreateBridgeRequest
      flat_map omitempty field_value json_key andb req_Id req_Type req_Name].
    change (isEmptyValue "") with true.
    destruct (isEmptyValue id); reflexivity. }
  rewrite M.
  destruct (isEmptyValue id) eqn:E.
  - apply isEmptyValue_spec in E. cbn. repeat split; auto.
    + intros N. contradiction.
    + intros N. contradiction.
  - cbn. repeat split.
    + intros [D | []]. discriminate D.
    + intros [D | []]. discriminate D.
    + intros _ V. rewrite (encoded_string_valid id V). reflexivity.
    + intros Z. apply isEmptyValue_spec in Z. congruence.
Qed.

(** X6.  Ids go into paths unescaped, so an id that ends in an action
    suffix reaches that action: deleting the bridge [id ++ "/moh"] is,
    call for call, stopping music on hold on [id]; and an upsert of
    [id] followed by a suffix posts to the very path of that action on
    [id]. *)
Theorem suffixed_id_reaches_other_action (c : Client) (w : World)
    (id : string) :
  runState (BridgeDelete c (id ++ "/moh")) w = runState (BridgeStopMoh c id) w
  /\ (forall r1 r2,
        requests (UpsertBridge c (id ++ "/addChannel") r1) w
        = requests (AddChannel c id r2) w)
  /\ (forall r1 ch,
        requests (UpsertBridge c (id ++ "/removeChannel") r1) w
        = requests (RemoveChannel c id ch) w)
  /\ (forall r1 cls,
        requests (UpsertBridge c (id ++ "/moh") r1) w
        = requests (PlayMusicOnHold c id cls) w)
  /\ (forall r1 r2,
        requests (UpsertBridge c (id ++ "/play") r1) w
        = requests (PlayToBridge c id r2) w)
  /\ (forall r1 pb r2,
        requests (UpsertBridge c (id ++ "/play/" ++ pb) r1) w
        = requests (PlayToBridgeById c id pb r2) w)
  /\ (forall r1 r2,
        requests (UpsertBridge c (id ++ "/record") r1) w
        = requests (RecordBridge c id r2) w).
Proof.
  split; [reflexivity |].
  repeat split; intros; read_wire; reflexivity.
Qed.

Lemma RemoveChannel_run (c : Client) (id channelId : string) (w : World) :
  runState (RemoveChannel c id channelId) w
  = (let k := Build_Call POST ("/bridges/" ++ id ++ "/removeChannel")
                NoTarget
                (RemoveChannelBody {| remove_ChannelId := channelId |}) in
     (failure (server c (wire w) k), sent k w)).
Proof.
  cbn -[append].
  match goal with
  | |- context [failure ?r] => destruct (failure r)
  end; reflexivity.
Qed.

(** X7.  [RemoveChannel] makes one POST whose body always has the
    [channel] member, also when the channel id is empty; the member
    holds the channel id as the encoder writes it, which is the id
    itself when it is valid UTF-8.  Its only error is the transport's. *)
Theorem RemoveChannel_always_sends_channel (c : Client)
    (id channelId : string) (w : World) :
  exists req : RemoveChannel_request,
    wire (snd (runState (RemoveChannel c id channelId) w))
    = wire w ++ [Build_Call POST ("/bridges/" ++ id ++ "/removeChannel")
                   NoTarget (RemoveChannelBody req)]
    /\ Marshal req = [("channel", JString (encoded_string channelId))]
    /\ (ValidString channelId = true ->
        Marshal req = [("channel", JString channelId)])
    /\ answer (RemoveChannel c id channelId) w
       = failure (server c (wire w)
                    (Build_Call POST ("/bridges/" ++ id ++ "/removeChannel")
                       NoTarget (RemoveChannelBody req))).
Proof.
  exists {| remove_ChannelId := channelId |}.
  unfold answer. rewrite RemoveChannel_run; cbn [fst snd sent wire].
  split; [reflexivity |]. split; [reflexivity |]. split; [| reflexivity].
  intros V. unfold Marshal, encode_field;
    cbn [fields Tagged_RemoveChannel_request flat_map omitempty
         field_value json_key andb app remove_ChannelId].
  rewrite (encoded_string_valid channelId V). reflexivity.
Qed.

End SequencingFacts.

(* ===================================================================== *)
(** * Further facts about the request bodies *)
(* ===================================================================== *)

Section MoreEncodingFacts.

Lemma encode_field_cases (f : field) :
  (encode_field f = [] /\ omitempty f = true /\ field_value f = "")
  \/ (encode_field f
      = [(json_key f, JString (encoded_string (field_value f)))]
      /\ (omitempty f = false \/ field_value f <> "")).
Proof.
  unfold encode_field.
  destruct (omitempty f); cbn [andb].
  - destruct (isEmptyValue (field_value f)) eqn:E.
    + left. apply isEmptyValue_spec in E. auto.
    + right. split; [reflexivity |]. right. intros Z.
      apply isEmptyValue_spec in Z. congruence.
  - right. auto.
Qed.

Lemma member_app (k : string) (j1 j2 : json_object) :
  member k (j1 ++ j2)
  = match member k j1 with
    | Some x => Some x
    | None => member k j2
    end.
Proof.
  unfold member. induction j1 as [|[k' v] j1 IH]; cbn.
  - reflexivity.
  - destruct (String.eqb k' k); [reflexivity | exact IH].
Qed.

(** Among fields with distinct keys, one that is not left out is found
    under its key with its value. *)
Lemma sent_field_found (fs : list field) (f : field) :
  NoDup (map json_key fs) -> In f fs ->
  omitempty f = false \/ field_value f <> "" ->
  member (json_key f) (flat_map encode_field fs)
  = Some (JString (encoded_string (field_value f))).
Proof.
  intros D; induction fs as [|g fs IH]; intros I S.
  - destruct I.
  - cbn [flat_map map] in *.
    apply NoDup_cons_iff in D as [Dg Dfs].
    rewrite member_app.
    destruct I as [-> | I].
    + destruct (encode_field_cases f) as [[_ [O E]] | [-> _]].
      * destruct S as [S | S]; congruence.
      * unfold member; cbn. rewrite String.eqb_refl. reflexivity.
    + assert (K : json_key g <> json_key f).
      { intros K. apply Dg. rewrite K. apply in_map, I. }
      destruct (encode_field_cases g) as [[-> _] | [-> _]].
      * cbn. exact (IH Dfs I S).
      * unfold member at 1; cbn.
        destruct (String.eqb_spec (json_key g) (json_key f)) as [E | _];
          [contradiction | exact (IH Dfs I S)].
Qed.

Lemma encoded_keys_distinct (fs : list field) :
  NoDup (map json_key fs) -> NoDup (keys (flat_map encode_field fs)).
Proof.
  induction fs as [|g fs IH]; cbn [flat_map map]; intros D.
  - constructor.
  - apply NoDup_cons_iff in D as [Dg Dfs].
    rewrite keys_app.
    destruct (encode_field_cases g) as [[-> _] | [-> _]]; cbn.
    + exact (IH Dfs).
    + constructor; [| exact (IH Dfs)].
      intros K. apply Dg, keys_come_from_fields, K.
Qed.

Lemma encoded_length (fs : list field) :
  length (flat_map encode_field fs) <= length fs.
Proof.
  induction fs as [|g fs IH]; cbn [flat_map length].
  - constructor.
  - rewrite length_app.
    destruct (encode_field_cases g) as [[-> _] | [-> _]]; cbn; lia.
Qed.

(** X8.  In a request struct whose fields have distinct keys, every
    field that is required (no [omitempty]) or not empty is sent: the
    encoding holds, under its key, its value as the encoder writes it,
    which is the value as given when it is valid UTF-8. *)
Theorem set_fields_are_sent_as_given (T : Type) (tags : Tagged T) (v : T)
    (f : field) :
  NoDup (map json_key (fields v)) -> In f (fields v) ->
  omitempty f = false \/ field_value f <> "" ->
  member (json_key f) (Marshal v)
  = Some (JString (encoded_string (field_value f)))
  /\ (ValidString (field_value f) = true ->
      member (json_key f) (Marshal v) = Some (JString (field_value f))).
Proof.
  intros D I S.
  assert (M : member (json_key f) (Marshal v)
              = Some (JString (encoded_string (field_value f)))).
  { unfold Marshal. apply sent_field_found; assumption. }
  split; [exact M |].
  intros V. rewrite M, (encoded_string_valid _ V). reflexivity.
Qed.

Lemma set_fields_are_sent_as_given_witness :
  member "type" (Marshal {| req_Id := ""; req_Type := "holding";
                            req_Name := "" |})
  = Some (JString "holding").
Proof.
  apply (@set_fields_are_sent_as_given _ Tagged_CreateBridgeRequest
           {| req_Id := ""; req_Type := "holding"; req_Name := "" |}
           {| json_key := "type"; omitempty := true;
              field_value := "holding" |}).
  - apply request_structs_have_distinct_keys.
  - cbn. right. left. reflexivity.
  - right. discriminate.
  - reflexivity.
Defined.

(** X9.  The encoding of a request struct with distinct keys is a proper
    object: no key occurs twice, every key is one the struct declares,
    and there is at most one member per field. *)
Theorem encoding_is_proper_object (T : Type) (tags : Tagged T) (v : T) :
  NoDup (map json_key (fields v)) ->
  NoDup (keys (Marshal v))
  /\ incl (keys (Marshal v)) (map json_key (fields v))
  /\ length (Marshal v) <= length (fields v).
Proof.
  intros D. unfold Marshal. split; [| split].
  - apply encoded_keys_distinct, D.
  - intros k. apply keys_come_from_fields.
  - apply encoded_length.
Qed.

Lemma encoding_is_proper_object_witness :
  NoDup (keys (Marshal {| ChannelId := "c1,c2"; Role := "participant" |}))
  /\ incl (keys (Marshal {| ChannelId := "c1,c2"; Role := "participant" |}))
          ["channel"; "role"]
  /\ length (Marshal {| ChannelId := "c1,c2"; Role := "participant" |}) <= 2.
Proof.
  apply (@encoding_is_proper_object _ Tagged_AddChannelRequest
           {| ChannelId := "c1,c2"; Role := "participant" |}).
  apply request_structs_have_distinct_keys.
Defined.

(** Splits on whether a field is empty, turning emptiness into an
    equation. *)
Ltac split_empty s :=
  let E := fresh "E" in
  destruct (isEmptyValue s) eqn:E;
  [ apply isEmptyValue_spec in E; try subst s | ].

(** Two names that are no valid UTF-8 and differ can encode alike: the
    bytes FF and FE both become U+FFFD. *)
Example invalid_names_encode_alike :
  Marshal {| req_Id := ""; req_Type := ""; req_Name := lone_ff |}
  = Marshal {| req_Id := ""; req_Type := ""; req_Name := lone_fe |}.
Proof. reflexivity. Qed.

(** Turns the validity of a request's fields into equations for the
    encoder. *)
Ltac use_valid_fields :=
  unfold valid_fields; cbn [fields forallb field_value
    Tagged_CreateBridgeRequest Tagged_AddChannelRequest
    Tagged_RemoveChannel_request Tagged_PlayMusicOnHold_request
    req_Id req_Type req_Name ChannelId Role remove_ChannelId MohClass];
  let Va := fresh "Va" in
  let Vb := fresh "Vb" in
  intros Va Vb;
  repeat match goal with
         | V : (_ && _)%bool = true |- _ =>
             let V1 := fresh "V" in
             apply andb_prop in V as [V1 V]
         | V : ValidString ?s = true |- _ =>
             rewrite (encoded_string_valid s V); clear V
         | V : true = true |- _ => clear V
         end.

(** X10.  Leaving out empty fields loses nothing on valid UTF-8: two
    requests of the same struct whose fields are valid UTF-8 and which
    encode to the same object are the same request.  This holds for each
    of the four request structs of the file. *)
Theorem encoding_determines_request :
  (forall r1 r2 : CreateBridgeRequest,
     valid_fields r1 = true -> valid_fields r2 = true ->
     Marshal r1 = Marshal r2 -> r1 = r2)
  /\ (forall r1 r2 : AddChannelRequest,
        valid_fields r1 = true -> valid_fields r2 = true ->
        Marshal r1 = Marshal r2 -> r1 = r2)
  /\ (forall r1 r2 : RemoveChannel_request,
        valid_fields r1 = true -> valid_fields r2 = true ->
        Marshal r1 = Marshal r2 -> r1 = r2)
  /\ (forall r1 r2 : PlayMusicOnHold_request,
        valid_fields r1 = true -> valid_fields r2 = true ->
        Marshal r1 = Marshal r2 -> r1 = r2).
Proof.
  split; [| split; [| split]].
  - intros [a1 b1 c1] [a2 b2 c2].
    unfold Marshal, encode_field; cbn [fields Tagged_CreateBridgeRequest
      flat_map omitempty field_value json_key andb
      req_Id req_Type req_Name ChannelId Role MohClass].
    use_valid_fields.
    split_empty a1; split_empty b1; split_empty c1;
      split_empty a2; split_empty b2; split_empty c2;
      cbn [app]; intros M; congruence.
  - intros [a1 b1] [a2 b2].
    unfold Marshal, encode_field; cbn [fields Tagged_AddChannelRequest
      flat_map omitempty field_value json_key andb
      req_Id req_Type req_Name ChannelId Role MohClass].
    use_valid_fields.
    split_empty b1; split_empty b2; cbn [app]; intros M; congruence.
  - intros [a1] [a2].
    unfold Marshal, encode_field; cbn [fields Tagged_RemoveChannel_request
      flat_map omitempty field_value json_key andb app
      remove_ChannelId].
    use_valid_fields. intros M; congruence.
  - intros [a1] [a2].
    unfold Marshal, encode_field; cbn [fields Tagged_PlayMusicOnHold_request
      flat_map omitempty field_value json_key andb
      req_Id req_Type req_Name ChannelId Role MohClass].
    use_valid_fields.
    split_empty a1; split_empty a2; cbn [app]; intros M; congruence.
Qed.

(** Two different classes in plain ASCII never encode alike. *)
Lemma encoding_determines_request_witness :
  valid_fields {| MohClass := "jazz" |} = true
  /\ valid_fields {| MohClass := "rock" |} = true
  /\ Marshal {| MohClass := "jazz" |} <> Marshal {| MohClass := "rock" |}.
Proof.
  split; [reflexivity |]. split; [reflexivity |].
  intros M.
  apply (proj2 (proj2 (proj2 encoding_determines_request))
           {| MohClass := "jazz" |} {| MohClass := "rock" |}
           eq_refl eq_refl) in M.
  discriminate M.
Defined.

End MoreEncodingFacts.

(* ===================================================================== *)
(** * Further facts about context propagation *)
(* ===================================================================== *)

Section MoreContextFacts.

(** A [bridgeKey] equals no key of another type, and comparing the two
    never panics. *)
Lemma iface_eq_foreign (name : string) (k : any) :
  is_bridgeKey k = false ->
  iface_eq (of_bridgeKey name) k = Done false
  /\ iface_eq k (of_bridgeKey name) = Done false.
Proof. destruct k; cbn; intros F; try discriminate F; split; reflexivity. Qed.

(** X11.  Layers that other code puts on a carrier (a cancellation or
    deadline layer, a value under a key that is not a [bridgeKey], be it
    a plain string of the same text) change no bridge lookup; and
    attaching a bridge changes no lookup under such a key, nor makes it
    panic. *)
Theorem foreign_layers_do_not_interfere (ctx : Context) (k v : any)
    (b : BridgePtr) (name : string) :
  is_bridgeKey k = false ->
  BridgeFromContextWithKey (WithValue ctx k v) name
  = BridgeFromContextWithKey ctx name
  /\ BridgeFromContextWithKey (cancelCtx ctx) name
     = BridgeFromContextWithKey ctx name
  /\ Value (NewBridgeContextWithKey ctx b name) k = Value ctx k.
Proof.
  intros F. destruct (iface_eq_foreign name k F) as [E1 E2].
  split; [| split].
  - unfold BridgeFromContextWithKey, WithValue. cbn [Value].
    rewrite E2. reflexivity.
  - reflexivity.
  - unfold NewBridgeContextWithKey, WithValue. cbn [Value].
    rewrite E1. reflexivity.
Qed.

Lemma foreign_layers_do_not_interfere_witness :
  BridgeFromContextWithKey
    (WithValue (NewBridgeContext emptyCtx (BridgeAt 4))
       (of_string "_default") (of_string "shadow?")) "_default"
  = BridgeFromContextWithKey (NewBridgeContext emptyCtx (BridgeAt 4))
      "_default".
Proof.
  apply (proj1 (@foreign_layers_do_not_interfere
                  (NewBridgeContext emptyCtx (BridgeAt 4))
                  (of_string "_default") (of_string "shadow?")
                  nilBridge "_default" eq_refl)).
Defined.

Lemma Value_typed (ctx : Context) (name : string) :
  bridge_typed ctx = true ->
  Value ctx (of_bridgeKey name)
  = Done nil_any /\ attached ctx name = false
  \/ exists p : BridgePtr,
       Value ctx (of_bridgeKey name) = Done (of_BridgePtr p)
       /\ attached ctx name = true.
Proof.
  induction ctx as [| parent IH | parent IH k v];
    cbn [bridge_typed Value attached]; intros T.
  - left. split; reflexivity.
  - exact (IH T).
  - apply andb_prop in T as [Tk Tp].
    rewrite iface_eq_bridgeKey.
    destruct k; cbn [is_bridgeKey negb orb] in Tk; try exact (IH Tp).
    destruct (String.eqb name0 name); cbn [orb].
    + right. destruct v; try discriminate Tk.
      exists b. split; reflexivity.
    + exact (IH Tp).
Qed.

(** X12.  The attach functions of this file store nothing but a [*Bridge]
    under a [bridgeKey], and keep a carrier in that state.  On such a
    carrier the presence flag of a lookup is [true] exactly when
    something was attached under the name. *)
Theorem typed_carriers_report_attachment (ctx : Context) (name : string) :
  bridge_typed ctx = true ->
  (exists p : BridgePtr,
     BridgeFromContextWithKey ctx name = Done (p, attached ctx name))
  /\ (forall (b : BridgePtr) (n : string),
        bridge_typed (NewBridgeContextWithKey ctx b n) = true).
Proof.
  intros T. split.
  - unfold BridgeFromContextWithKey.
    destruct (Value_typed ctx name T) as [[-> ->] | [p [-> ->]]].
    + exists nilBridge. reflexivity.
    + exists p. reflexivity.
  - intros b n. cbn. exact T.
Qed.

Lemma typed_carriers_report_attachment_witness :
  exists p : BridgePtr,
    BridgeFromContextWithKey
      (NewBridgeContextWithKey busy_context (BridgeAt 5) "peer") "peer"
    = Done (p, attached
                 (NewBridgeContextWithKey busy_context (BridgeAt 5) "peer")
                 "peer").
Proof.
  apply (proj1 (@typed_carriers_report_attachment
                  (NewBridgeContextWithKey busy_context (BridgeAt 5) "peer")
                  "peer" eq_refl)).
Defined.

(** X13.  A carrier with attachments behaves as a map from names to
    bridges in which the last attachment under a name wins: after any
    series of attachments, a lookup gives the bridge attached last under
    that name, and what the original carrier gives when the series has
    none under it. *)
Theorem attachments_behave_as_map (ctx : Context)
    (l : list (string * BridgePtr)) (name : string) :
  BridgeFromContextWithKey (attach_all ctx l) name
  = match latest name l with
    | Some b => Done (b, true)
    | None => BridgeFromContextWithKey ctx name
    end.
Proof.
  revert ctx. induction l as [|[n b] rest IH]; intros ctx;
    cbn [attach_all latest].
  - reflexivity.
  - rewrite IH. destruct (latest name rest) as [b'|]; [reflexivity |].
    destruct (String.eqb_spec n name) as [-> | D].
    + apply BridgeFromContextWithKey_same.
    + apply BridgeFromContextWithKey_other, D.
Qed.

(** X14.  The order of two attachments under different names makes no
    difference to any lookup. *)
Theorem attachments_under_distinct_names_commute (ctx : Context)
    (b1 b2 : BridgePtr) (n1 n2 m : string) :
  n1 <> n2 ->
  BridgeFromContextWithKey
    (NewBridgeContextWithKey (NewBridgeContextWithKey ctx b1 n1) b2 n2) m
  = BridgeFromContextWithKey
      (NewBridgeContextWithKey (NewBridgeContextWithKey ctx b2 n2) b1 n1) m.
Proof.
  intros D.
  destruct (String.eqb_spec n2 m) as [-> | D2].
  - rewrite BridgeFromContextWithKey_same.
    rewrite (BridgeFromContextWithKey_other _ b1 D).
    rewrite BridgeFromContextWithKey_same. reflexivity.
  - rewrite (BridgeFromContextWithKey_other _ b2 D2).
    destruct (String.eqb_spec n1 m) as [-> | D1].
    + rewrite !BridgeFromContextWithKey_same. reflexivity.
    + rewrite !(BridgeFromContextWithKey_other _ _ D1).
      rewrite (BridgeFromContextWithKey_other _ _ D2). reflexivity.
Qed.

Lemma attachments_under_distinct_names_commute_witness :
  BridgeFromContextWithKey
    (NewBridgeContextWithKey
       (NewBridgeContextWithKey busy_context (BridgeAt 1) "caller")
       (BridgeAt 2) "callee") "caller"
  = BridgeFromContextWithKey
      (NewBridgeContextWithKey
         (NewBridgeContextWithKey busy_context (BridgeAt 2) "callee")
         (BridgeAt 1) "caller") "caller".
Proof.
  apply (@attachments_under_distinct_names_commute busy_context
           (BridgeAt 1) (BridgeAt 2) "caller" "callee" "caller").
  discriminate.
Defined.

(** X15.  The default name is a name like any other: a bridge attached
    under "_default" by name replaces, for every later lookup, the one
    attached by [NewBridgeContext], while the carrier from before still
    gives the first bridge. *)
Theorem default_name_is_not_reserved (ctx : Context) (b1 b2 : BridgePtr) :
  BridgeFromContext
    (NewBridgeContextWithKey (NewBridgeContext ctx b1) b2 "_default")
  = Done (b2, true)
  /\ BridgeFromContextWithKey (NewBridgeContext ctx b1) "_default"
     = Done (b1, true)
  /\ BridgeFromContext (NewBridgeContextWithKey ctx b1 "_default")
     = Done (b1, true).
Proof.
  split; [| split]; apply BridgeFromContextWithKey_same.
Qed.

End MoreContextFacts.

(* ===================================================================== *)
(** * The further facts at concrete clients *)
(* ===================================================================== *)

(** The list comes back with the bridge that was read before the reply
    broke off, beside the error. *)
Example ListBridges_interrupted :
  answer (ListBridges interrupted_client) fresh_world
  = ([ {| Bridge_class := ""; Bridge_type := "mixing"; Channels := [];
          Creator := ""; Id := "b-17"; Name := ""; Technology := "" |} ],
     Some "unexpected EOF").
Proof. reflexivity. Qed.

Lemma failed_operation_keeps_decoded_value_witness :
  answer (perform interrupted_client OpListBridges) fresh_world
  = (BridgesValue
       [ {| Bridge_class := ""; Bridge_type := "mixing"; Channels := [];
            Creator := ""; Id := "b-17"; Name := ""; Technology := "" |} ],
     Some "unexpected EOF").
Proof.
  apply (@failed_operation_keeps_decoded_value plain interrupted_client
           OpListBridges fresh_world "unexpected EOF").
  reflexivity.
Defined.

Lemma successive_NewBridge_use_successive_ids_witness :
  requests (a <- NewBridge echoing_client ;;
            b <- NewBridge echoing_client ;; ret (a, b)) fresh_world
  = [ (POST, "/bridges/3f2c1a9e-0b7d-4c55-9a10-5d6e7f809a1b");
      (POST, "/bridges/c4d5e6f7-1a2b-4c3d-8e9f-001122334455") ]
  /\ "/bridges/3f2c1a9e-0b7d-4c55-9a10-5d6e7f809a1b"
     <> "/bridges/c4d5e6f7-1a2b-4c3d-8e9f-001122334455".
Proof.
  destruct (@successive_NewBridge_use_successive_ids plain echoing_client
              fresh_world) as [W [_ D]].
  split.
  - unfold requests. rewrite W. reflexivity.
  - apply D. discriminate.
Defined.
